(** * Looply LIA: the rule-based responder of [lia/lia_clean_final.py]

    A shallow embedding of class [LooplyLIA] and the properties its
    specification states about it.

    Modelling conventions.
    - A Python [str] is a sequence of Unicode code points: [str := list N].
      Literals of the source are written as Rocq strings (the UTF-8 bytes
      of the source file) and decoded by [U].
    - Operations that can raise in Python return in the error monad
      [result]; state is threaded explicitly ([chat] returns the reply
      together with the responder after the call).
    - The wall clock and the draws of module [random] during one call are
      inputs of the call, gathered in a [World].
    - The attributes assigned once in [__init__] and never written again
      ([looply_hashtags], [caption_templates], [content_ideas],
      [engagement_strategies]) are constants; [memory],
      [intelligence_level], [name] and [session_data] are the fields of
      the record [LooplyLIA]. *)

From Stdlib Require Import ZArith NArith List Bool Lia String Ascii DecimalString.
From stdpp Require Import gmap list.

Local Open Scope N_scope.

(** ** Python strings *)

Module PyStr.

Abbreviation str := (list N).

(** Decoding of the UTF-8 bytes of a source literal into code points.
    [need] is the number of continuation bytes still expected and [acc]
    the bits gathered so far. *)
Fixpoint utf8_go (bs : list N) (need : nat) (acc : N) : str :=
  match bs with
  | [] => []
  | b :: r =>
      match need with
      | O =>
          if b <? 128 then b :: utf8_go r 0 0
          else if b <? 224 then utf8_go r 1 (N.land b 31)
          else if b <? 240 then utf8_go r 2 (N.land b 15)
          else utf8_go r 3 (N.land b 7)
      | S O => (acc * 64 + N.land b 63) :: utf8_go r 0 0
      | S n => utf8_go r n (acc * 64 + N.land b 63)
      end
  end.

Definition U (s : string) : str :=
  utf8_go (map N_of_ascii (list_ascii_of_string s)) 0 0.

Definition nl : N := 10.
Definition dq : N := 34.
Definition hash : N := 35.

(** [needle in hay] for strings: substring test. *)
Fixpoint starts_with (needle hay : str) : bool :=
  match needle, hay with
  | [], _ => true
  | _ :: _, [] => false
  | a :: n, b :: h => (a =? b) && starts_with n h
  end.

Fixpoint contains (needle hay : str) : bool :=
  starts_with needle hay ||
  match hay with
  | [] => false
  | _ :: h => contains needle h
  end.

(** [any(word in s for word in words)] *)
Definition any_in (words : list str) (s : str) : bool :=
  existsb (fun w => contains w s) words.

(** [str.isspace] on one code point (Unicode White_Space plus the
    information separators 0x1C-0x1F, as CPython has it). *)
Definition isspace (c : N) : bool :=
  ((9 <=? c) && (c <=? 13)) || ((28 <=? c) && (c <=? 32)) ||
  (c =? 133) || (c =? 160) || (c =? 5760) ||
  ((8192 <=? c) && (c <=? 8202)) ||
  (c =? 8232) || (c =? 8233) || (c =? 8239) || (c =? 8287) || (c =? 12288).

Fixpoint lstrip (s : str) : str :=
  match s with
  | [] => []
  | c :: r => if isspace c then lstrip r else s
  end.

Definition rstrip (s : str) : str := rev (lstrip (rev s)).

(** [s.strip()] *)
Definition strip (s : str) : str := rstrip (lstrip s).

(** [sep.join(parts)] *)
Fixpoint join (sep : str) (parts : list str) : str :=
  match parts with
  | [] => []
  | [p] => p
  | p :: ps => p ++ sep ++ join sep ps
  end.

(** Left-to-right scan shared by [split] and [replace]: [skip] counts the
    characters of a separator just recognised that are still to be
    dropped, [cur] is the current piece, reversed. *)
Fixpoint split_go (sep : str) (s : str) (skip : nat) (cur : str) : list str :=
  match s with
  | [] => [rev cur]
  | c :: r =>
      match skip with
      | S k => split_go sep r k cur
      | O =>
          if starts_with sep s
          then rev cur :: split_go sep r (length sep - 1) []
          else split_go sep r 0 (c :: cur)
      end
  end.

(** [s.split(sep)] for a non-empty separator (Python raises [ValueError]
    on an empty one; the source only splits on ['about'] and ['for']). *)
Definition split (sep : str) (s : str) : list str := split_go sep s 0 [].

(** [s.replace(old, new)] for a non-empty [old]. *)
Definition replace (old new : str) (s : str) : str :=
  join new (split old s).

(** ASCII case mapping. *)
Definition ascii_lower (c : N) : N :=
  if (65 <=? c) && (c <=? 90) then c + 32 else c.
Definition ascii_upper (c : N) : N :=
  if (97 <=? c) && (c <=? 122) then c - 32 else c.
Definition ascii_alpha (c : N) : bool :=
  ((65 <=? c) && (c <=? 90)) || ((97 <=? c) && (c <=? 122)).

(** [s.title()] on ASCII text: a letter that follows a non-letter is
    upper-cased, every other letter lower-cased. The source applies it to
    the keys of [engagement_strategies] only, which are ASCII. *)
Fixpoint title_go (s : str) (prev_cased : bool) : str :=
  match s with
  | [] => []
  | c :: r =>
      (if prev_cased then ascii_lower c else ascii_upper c)
        :: title_go r (ascii_alpha c)
  end.
Definition title (s : str) : str := title_go s false.

(** [str(n)] for an integer. *)
Definition str_of_Z (z : Z) : str :=
  map N_of_ascii (list_ascii_of_string (NilZero.string_of_int (Z.to_int z))).

(** Two-digit, zero-padded field of [time.strftime] ([%H], [%M], [%S]). *)
Definition pad2 (n : nat) : str :=
  if (n <? 10)%nat then U "0" ++ str_of_Z (Z.of_nat n) else str_of_Z (Z.of_nat n).

End PyStr.
Import PyStr.


(** ** Errors, randomness and the clock *)

Inductive exn := IndexError | KeyError | ValueError.

Inductive result (A : Type) : Type :=
| Ok (a : A)
| Raise (e : exn).
Arguments Ok {A} a.
Arguments Raise {A} e.

Definition bind {A B} (m : result A) (f : A -> result B) : result B :=
  match m with
  | Ok a => f a
  | Raise e => Raise e
  end.

Notation "'let*' x ':=' m 'in' k" := (bind m (fun x => k))
  (at level 10, x name, m at level 100, k at level 200).

(** What one call observes of the outside: the wall clock
    ([time.strftime]) and the successive raw draws of the generator behind
    [random]; [randbelow w i n] is the [i]-th draw of the call, reduced
    to [range(n)]. *)
Record World := {
  hour : nat;
  minute : nat;
  second : nat;
  draw : nat -> nat
}.

Definition randbelow (w : World) (i n : nat) : nat := (draw w i mod n)%nat.

(** [random.choice(seq)] : [seq[randbelow(len(seq))]], [IndexError] on an
    empty sequence. *)
Definition choice {A} (w : World) (seq : list A) : result A :=
  match seq with
  | [] => Raise IndexError
  | _ =>
      match seq !! randbelow w 0 (length seq) with
      | Some x => Ok x
      | None => Raise IndexError
      end
  end.

(** [random.sample(population, k)], the pool algorithm CPython runs for
    populations of at most 21 items when [k <= 5] (both uses in the
    source): [result[i] = pool[j]; pool[j] = pool[n-i-1]] with
    [j = randbelow(n-i)]. *)
Fixpoint sample_loop {A} (w : World) (pool : list A) (n i todo : nat)
  : result (list A) :=
  match todo with
  | O => Ok []
  | S t =>
      let j := randbelow w i (n - i) in
      match pool !! j, pool !! (n - i - 1)%nat with
      | Some x, Some y =>
          let* rest := sample_loop w (<[j:=y]> pool) n (S i) t in
          Ok (x :: rest)
      | _, _ => Raise IndexError
      end
  end.

Definition sample {A} (w : World) (population : list A) (k : nat)
  : result (list A) :=
  let n := length population in
  if (k <=? n)%nat then sample_loop w population n 0 k
  else Raise ValueError.

(** [time.strftime('%H:%M:%S')] *)
Definition strftime_HMS (w : World) : str :=
  pad2 (hour w) ++ U ":" ++ pad2 (minute w) ++ U ":" ++ pad2 (second w).

(** ** Dictionaries with literal keys *)

Fixpoint str_eqb (a b : str) : bool :=
  match a, b with
  | [], [] => true
  | x :: a', y :: b' => (x =? y) && str_eqb a' b'
  | _, _ => false
  end.

(** [d[k]] on a dictionary literal, kept in insertion order. *)
Fixpoint dict_get {A} (d : list (str * A)) (k : str) : result A :=
  match d with
  | [] => Raise KeyError
  | (k', v) :: d' => if str_eqb k k' then Ok v else dict_get d' k
  end.

Definition dict_mem {A} (d : list (str * A)) (k : str) : bool :=
  existsb (fun kv => str_eqb k (fst kv)) d.

(** [template.format] with keyword arguments [kw], for templates whose replacement fields are
    plain names, as all of [caption_templates] are: [{{] and [}}] stand
    for a brace, [{name}] for [kw[name]]; a brace left open or closed
    alone raises [ValueError], an unknown name [KeyError]. [field] holds
    the reversed name being read inside braces. *)
Fixpoint format_go (kw : list (str * str)) (tpl : str) (field : option str)
  : result str :=
  match tpl with
  | [] =>
      match field with
      | None => Ok []
      | Some _ => Raise ValueError
      end
  | c :: r =>
      match field with
      | Some acc =>
          if c =? 125 then
            let* v := dict_get kw (rev acc) in
            let* rest := format_go kw r None in
            Ok (v ++ rest)
          else format_go kw r (Some (c :: acc))
      | None =>
          if c =? 123 then
            match r with
            | c' :: r' =>
                if c' =? 123 then
                  let* rest := format_go kw r' None in Ok (123 :: rest)
                else format_go kw r (Some [])
            | [] => Raise ValueError
            end
          else if c =? 125 then
            match r with
            | c' :: r' =>
                if c' =? 125 then
                  let* rest := format_go kw r' None in Ok (125 :: rest)
                else Raise ValueError
            | [] => Raise ValueError
            end
          else
            let* rest := format_go kw r None in Ok (c :: rest)
      end
  end.

Definition format (tpl : str) (kw : list (str * str)) : result str :=
  format_go kw tpl None.

(** ** The tables built by [__init__] *)

Definition looply_hashtags : list (str * list str) :=
  [
    (U "general",
     [U "#LooplyLife"; U "#Authentic"; U "#Community"; U "#Share"; U "#Connect"; U "#Vibes"; U "#RealTalk"]);
    (U "fitness",
     [U "#FitnessJourney"; U "#HealthyLifestyle"; U "#WorkoutMotivation"; U "#FitFam"; U "#Wellness"; U "#LooplyFit"]);
    (U "food",
     [U "#Foodie"; U "#Delicious"; U "#Cooking"; U "#Recipe"; U "#FoodLover"; U "#LooplyEats"]);
    (U "travel",
     [U "#Travel"; U "#Adventure"; U "#Wanderlust"; U "#Explore"; U "#Journey"; U "#LooplyTravel"]);
    (U "tech",
     [U "#Technology"; U "#Innovation"; U "#TechLife"; U "#Digital"; U "#Future"; U "#LooplyTech"]);
    (U "art",
     [U "#Art"; U "#Creative"; U "#Artist"; U "#Inspiration"; U "#Design"; U "#LooplyArt"]);
    (U "lifestyle",
     [U "#Lifestyle"; U "#Mindful"; U "#Balance"; U "#Growth"; U "#Positive"; U "#LooplyDaily"]);
    (U "business",
     [U "#Entrepreneur"; U "#Business"; U "#Success"; U "#Hustle"; U "#Goals"; U "#LooplyBiz"]);
    (U "entertainment",
     [U "#Fun"; U "#Entertainment"; U "#Music"; U "#Movies"; U "#Gaming"; U "#LooplyFun"])
  ].

(** [self.caption_templates] *)
Definition caption_templates : list str :=
  [ U "✨ {topic} vibes hitting different today... What's your take? 💭 {hashtags}";
    U "Just discovered something amazing about {topic}! 🔥 Who else can relate? {hashtags}";
    U "Today's mood: {topic} energy! 💫 Drop your thoughts below 👇 {hashtags}";
    U "Let's talk about {topic}... Your perspective matters! 🌟 {hashtags}";
    U "Feeling inspired by {topic} lately 🚀 Anyone else on this wavelength? {hashtags}";
    U "Real talk about {topic}: it's been a game-changer 💯 {hashtags}";
    U "Can we normalize talking about {topic}? It's so important! 🙌 {hashtags}";
    U "Plot twist: {topic} just became my new obsession 😍 {hashtags}";
    U "Unpopular opinion: {topic} doesn't get enough credit 🤔 {hashtags}";
    U "Behind the scenes of my {topic} journey... it's been wild! 📸 {hashtags}" ].

(** [self.content_ideas] *)
Definition content_ideas : list str :=
  [ U "💡 Share a behind-the-scenes moment from your day";
    U "🎯 Ask your community a thought-provoking question";
    U "📚 Share something new you learned recently";
    U "🌟 Highlight someone who inspires you";
    U "🎨 Create a poll about preferences in your niche";
    U "💭 Share a personal reflection or insight";
    U "📸 Post a photo that tells a story";
    U "🎉 Celebrate a small win or achievement";
    U "🔥 Share a hot take or unpopular opinion";
    U "💪 Document your progress on a goal";
    U "🤝 Collaborate with another creator";
    U "📱 Show your creative process";
    U "🎵 Share what you're listening to";
    U "🌅 Post your morning routine";
    U "🍕 Share what you're eating";
    U "✈️ Document a mini adventure";
    U "💡 Give a quick tip in your expertise";
    U "🎭 Share a funny moment or meme";
    U "📖 Recommend something you love";
    U "🎊 Celebrate your community" ].

Definition engagement_strategies : list (str * str) :=
  [
    (U "post_timing",
     U "Best posting times on Looply: 7-9 AM, 12-1 PM, and 7-9 PM when your community is most active!");
    (U "hashtag_strategy",
     U "Use 5-8 hashtags: mix 2-3 popular ones (#LooplyLife) with 3-5 niche ones specific to your content.");
    (U "content_mix",
     U "Follow the 80/20 rule: 80% valuable/entertaining content, 20% promotional. Keep it authentic!");
    (U "community_building",
     U "Respond to comments within the first hour. Ask questions in your captions to spark conversations.");
    (U "consistency",
     U "Post consistently but prioritize quality over quantity. 3-5 high-quality posts per week beats daily rushed content.");
    (U "storytelling",
     U "Every post should tell a story. Start with a hook, share the journey, and end with a call-to-action.");
    (U "visual_appeal",
     U "Good lighting and composition matter more than expensive equipment. Natural light is your best friend!");
    (U "authenticity",
     U "Share both wins and struggles. Your community connects with real, relatable content more than perfection.")
  ].

(** ** The literals of [analyze_trends] and [chat] *)

(** the list [trends] of [analyze_trends] *)
Definition trends : list str :=
  [ U "📈 'Authentic storytelling' posts are performing 300% better this week";
    U "🔥 'Behind-the-scenes' content is trending - people love the real you!";
    U "💡 Q&A format posts are getting amazing engagement lately";
    U "🎯 'Day in my life' content is super popular right now";
    U "✨ Carousel posts with tips are getting great reach";
    U "🌟 Community challenges are driving massive engagement" ].

(** the list [greetings] of [chat] *)
Definition greetings : list str :=
  [ U "Hey there! 👋 I'm LIA, your Looply assistant. Ready to create something amazing?";
    U "Hello! ✨ I'm here to help you level up your Looply game. What can we work on?";
    U "Hi! 🚀 I'm LIA, and I'm excited to help you create engaging content for Looply!" ].

(** the list [social_jokes] of [chat] *)
Definition social_jokes : list str :=
  [ U "Why don't social media managers ever get lost? They always know how to find their way to trending! 😄";
    U "What do you call a hashtag that works out? #FitTag! 💪";
    U "Why did the influencer bring a ladder to the photoshoot? To reach new heights! 📸";
    U "What's a content creator's favorite type of music? Algo-rhythms! 🎵" ].

(** the list [defaults] of [chat] *)
Definition defaults : list str :=
  [ U "🤔 I'm still learning about that! Try asking for captions, hashtags, content ideas, or engagement tips.";
    U "💡 Not sure about that one! I'm great with content creation, hashtags, and Looply growth strategies.";
    U "✨ Let me help you with something I know well - try asking for a caption or content ideas!" ].

(** the text returned by the performance branch of [chat], line by line *)
Definition performance_tips : str :=
  join [nl]
  [ U "📊 **Looply Performance Tips:**";
    [];
    U "🎯 **Key Metrics to Track:**";
    U "• Engagement rate (likes + comments ÷ followers)";
    U "• Reach and impressions";
    U "• Profile visits and follows";
    U "• Save rate (shows content value)";
    [];
    U "📈 **Optimization Strategies:**";
    U "• Post when your audience is most active";
    U "• Use analytics to identify top-performing content";
    U "• A/B test different caption styles";
    U "• Monitor hashtag performance";
    [];
    U "🚀 **Growth Hacks:**";
    U "• Collaborate with other creators";
    U "• Engage actively in your community";
    U "• Share user-generated content";
    U "• Host live sessions or Q&As" ].

(** the text returned by the help branch of [chat], line by line *)
Definition help_text : str :=
  join [nl]
  [ U "🌟 **I'm LIA, your Looply assistant! Here's what I can help with:**";
    [];
    U "📝 **Content Creation:**";
    U "• " ++ [dq] ++ U "Create a caption about travel" ++ [dq];
    U "• " ++ [dq] ++ U "Generate hashtags for fitness" ++ [dq];
    U "• " ++ [dq] ++ U "Give me content ideas" ++ [dq];
    [];
    U "📊 **Growth & Strategy:**";
    U "• " ++ [dq] ++ U "Engagement tips" ++ [dq];
    U "• " ++ [dq] ++ U "Current trends" ++ [dq];
    U "• " ++ [dq] ++ U "Performance advice" ++ [dq];
    [];
    U "🧠 **Learning:**";
    U "• " ++ [dq] ++ U "Learn my niche: photography" ++ [dq];
    U "• " ++ [dq] ++ U "Remember my posting time: 8 PM" ++ [dq];
    [];
    U "💡 **Quick Commands:**";
    U "• Ask for jokes, time, or just say hello!";
    U "• Be specific about your niche for better suggestions" ].


(** ** The responder *)

Record LooplyLIA := {
  name : str;
  memory : gmap str str;
  intelligence_level : Z;
  session_data : gmap str str
}.

(** [LooplyLIA(name)] *)
Definition __init__ (name : str) : LooplyLIA :=
  {| name := name; memory := ∅; intelligence_level := 5; session_data := ∅ |}.

Definition set_memory (self : LooplyLIA) (m : gmap str str) : LooplyLIA :=
  {| name := name self; memory := m;
     intelligence_level := intelligence_level self;
     session_data := session_data self |}.

Definition set_intelligence_level (self : LooplyLIA) (n : Z) : LooplyLIA :=
  {| name := name self; memory := memory self;
     intelligence_level := n;
     session_data := session_data self |}.

Definition learn (self : LooplyLIA) (key value : str) : str * LooplyLIA :=
  let self := set_memory self (<[key:=value]> (memory self)) in
  (U "✅ Learned " ++ key ++
   U ". I'll remember this for our future conversations!", self).

Definition recall_default : str :=
  U "🤔 I don't remember that yet. Want to teach me?".

Definition recall (self : LooplyLIA) (key : str) : str :=
  default recall_default (memory self !! key).

Definition upgrade_intelligence (self : LooplyLIA) : str * LooplyLIA :=
  let self := set_intelligence_level self (intelligence_level self + 1) in
  (U "🧠 Intelligence upgraded to level " ++
   str_of_Z (intelligence_level self) ++
   U "! Now I'm even better at helping with Looply content!", self).

(** ** Dispatch by first match, and what the properties below speak of *)

(** An ordered list of rules, each a list of keywords with what it
    selects; the first rule one of whose keywords occurs in [s] wins. *)
Fixpoint first_match {H} (rules : list (list str * H)) (fallback : H) (s : str)
  : H :=
  match rules with
  | [] => fallback
  | (keywords, h) :: rest =>
      if any_in keywords s then h else first_match rest fallback s
  end.

(** No rule of [rules] matches [s]. *)
Definition none_matches {H} (rules : list (list str * H)) (s : str) : bool :=
  forallb (fun rule => negb (any_in (fst rule) s)) rules.

(** What a branch of [chat] does with the responder, the world and the
    normalized utterance. *)
Definition intent : Type :=
  LooplyLIA -> World -> str -> result (str * LooplyLIA).

(** A branch that answers without reading or writing the responder:
    the reply is the same whatever the responder, which is returned as
    it came. *)
Definition state_blind (h : intent) (w : World) (s : str) : Prop :=
  exists r, forall self, h self w s = Ok (r, self).

(** The keyword neither begins nor ends with white space. *)
Definition visible_ends (k : str) : bool :=
  match k, rev k with
  | a :: _, z :: _ => negb (isspace a) && negb (isspace z)
  | _, _ => false
  end.

(** The whitespace-separated tokens of a string ([s.split()]); [cur] is
    the token being read, reversed. *)
Fixpoint tokens_go (s : str) (cur : str) : list str :=
  match s with
  | [] => match cur with [] => [] | _ => [rev cur] end
  | c :: r =>
      if isspace c then
        match cur with
        | [] => tokens_go r []
        | _ => rev cur :: tokens_go r []
        end
      else tokens_go r (c :: cur)
  end.

Definition tokens (s : str) : list str := tokens_go s [].

Definition is_hashtag (t : str) : bool :=
  match t with
  | c :: _ => c =? hash
  | [] => false
  end.

(** Number of tokens of [s] that start with [#]. *)
Definition hashtag_tokens (s : str) : nat :=
  length (List.filter is_hashtag (tokens s)).

(** Number of [#] characters of [s]. *)
Definition count_hash (s : str) : nat :=
  length (List.filter (fun c => c =? hash) s).

(** The reply of a call, with the exception when it raised. *)
Definition reply {S} (r : result (str * S)) : result str :=
  let* rs := r in Ok (fst rs).

(** A stand-in for the Unicode table that leaves a code point outside
    ASCII as it is. The examples below run on ASCII text, for which
    [str.lower] never consults the table. *)
Definition no_unicode_lower (s : str) (i : nat) : str :=
  match s !! i with
  | Some c => [c]
  | None => []
  end.

(** A moment of the day and a sequence of draws, for the examples. *)
Definition morning : World :=
  {| hour := 9; minute := 5; second := 30; draw := fun i => (7 + 3 * i)%nat |}.

(** ** What the further properties speak of *)

(** The text [get_engagement_tips] builds when its focus is no strategy
    name: the [tips] string of the source once the loop over
    [engagement_strategies] has run and the closing line is added. *)
Definition engagement_mastery : str :=
  fold_left
    (fun tips kv =>
       tips ++ U "**" ++ title (replace (U "_") (U " ") (fst kv)) ++
       U ":** " ++ snd kv ++ [nl; nl])
    engagement_strategies
    (U "🚀 **Looply Engagement Mastery:**" ++ [nl; nl])
  ++ U "🌟 Remember: Authentic engagement beats vanity metrics every time!".

(** A stand-in for the text Python gives an exception; no call in the
    examples raises one. *)
Definition no_exn_text (e : exn) : str := [].

(** *** The console of [run_interactive] *)

(** What a call of [input] brings: a line typed, the end of the input
    ([EOFError]) or an interrupt from the keyboard
    ([KeyboardInterrupt]). *)
Inductive console_input :=
| Typed (line : str)
| EndOfInput
| Interrupt.

(** What the loop writes: the prompt of [input], which ends no line,
    and the texts handed to [print], each of which ends its line. *)
Inductive console_output :=
| Prompted (text : str)
| Printed (text : str).

(** One pass through the body of the loop: it leaves the loop or goes
    round again, with what it wrote. *)
Inductive turn :=
| Stop (out : list console_output)
| Go (out : list console_output) (lia : LooplyLIA).

Definition banner : list console_output :=
  [ Printed (U "🌟" ++ replicate 50 61 ++ U "🌟");
    Printed (U "     LOOPLY INTELLIGENT ASSISTANT (LIA)");
    Printed (U "        Enhanced Social Media Edition");
    Printed (U "🌟" ++ replicate 50 61 ++ U "🌟");
    Printed [];
    Printed (U "✨ Welcome to LIA! I'm your Looply content creation assistant.");
    Printed (U "💡 Try: 'create caption', 'suggest hashtags', 'content ideas'");
    Printed (U "🚀 Type 'help' for all commands or 'exit' to quit");
    Printed [] ].

Definition goodbye : str :=
  U "🌟 Thanks for using LIA! Keep creating amazing content on Looply! ✨".

Definition oops : str := U "❌ Oops! Something went wrong: ".

Definition try_asking : str :=
  U "💡 Try asking for help or content suggestions!".

(** *** The requests and responses of [run_server] *)

(** The Python values that [json.loads] produces and [json.dumps]
    takes. A dictionary is the list of its items, whose keys are
    distinct; a float is kept as the literal that denotes it. *)
#[warnings="-register-all"]
Inductive pyval :=
| PNone
| PBool (b : bool)
| PInt (z : Z)
| PFloat (literal : str)
| PStr (s : str)
| PList (items : list pyval)
| PDict (items : list (str * pyval)).

(** [type(v).__name__] *)
Definition type_name (v : pyval) : str :=
  match v with
  | PNone => U "NoneType"
  | PBool _ => U "bool"
  | PInt _ => U "int"
  | PFloat _ => U "float"
  | PStr _ => U "str"
  | PList _ => U "list"
  | PDict _ => U "dict"
  end.

(** The text of the [AttributeError] for [v.attr] on a value that has
    no such attribute. *)
Definition no_attribute (v : pyval) (attr : str) : str :=
  U "'" ++ type_name v ++ U "' object has no attribute '" ++ attr ++ U "'".

(** What the handler sends: the status of [send_response], the headers
    of its [send_header] calls in order, and the value it hands to
    [json.dumps] for the body, if it writes one. *)
Record http_response := {
  status : nat;
  sent_headers : list (str * str);
  payload : option pyval
}.

Definition ok_response (reply_text : str) (level : Z) : http_response :=
  {| status := 200;
     sent_headers :=
       [ (U "Content-type", U "application/json");
         (U "Access-Control-Allow-Origin", U "*") ];
     payload :=
       Some (PDict
               [ (U "reply", PStr reply_text);
                 (U "source", PStr (U "looply_lia"));
                 (U "confidence", PFloat (U "0.9"));
                 (U "metadata",
                  PDict [ (U "backend_version",
                           PStr (U "clean_final_enhanced"));
                          (U "intelligence_level", PInt level) ]) ]) |}.

Definition error_response (text : str) : http_response :=
  {| status := 500;
     sent_headers :=
       [ (U "Content-type", U "application/json");
         (U "Access-Control-Allow-Origin", U "*") ];
     payload :=
       Some (PDict
               [ (U "reply", PStr (U "Sorry, I encountered an error: " ++ text));
                 (U "source", PStr (U "error"));
                 (U "confidence", PFloat (U "0.0")) ]) |}.

(** [do_OPTIONS]: the answer to a preflight request. *)
Definition do_OPTIONS : http_response :=
  {| status := 200;
     sent_headers :=
       [ (U "Access-Control-Allow-Origin", U "*");
         (U "Access-Control-Allow-Methods", U "POST, OPTIONS");
         (U "Access-Control-Allow-Headers", U "Content-Type") ];
     payload := None |}.


(** *** The table of [test_lia_functionality] *)

Definition test_cases : list (str * str) :=
  [ (U "Basic greeting", U "hello");
    (U "Time query", U "what time is it");
    (U "Caption generation", U "create a caption about travel");
    (U "Hashtag suggestions", U "suggest hashtags for fitness");
    (U "Content ideas", U "give me content ideas");
    (U "Engagement tips", U "how to get more engagement");
    (U "Trend analysis", U "what's trending now");
    (U "Joke request", U "tell me a joke");
    (U "Help request", U "what can you do");
    (U "Learning capability", U "learn my niche: photography");
    (U "Intelligence upgrade", U "upgrade your intelligence");
    (U "Unknown query", U "what's the weather like on Mars") ].

(** Replaces a literal by the list of its code points. *)
Ltac literal s :=
  let l := eval vm_compute in (U s) in change (U s) with l.

Section Responder.

(** [str.lower] maps an ASCII code point by [ascii_lower]; for a code
    point outside ASCII it consults the Unicode database of the Python
    runtime, which is not part of the repository:
    [unicode_lower s i] is what it puts for the code point at index [i]
    of [s] (one or several code points; the neighbours matter for a
    capital sigma). *)
Variable unicode_lower : str -> nat -> str.

Definition lower (s : str) : str :=
  concat (imap (fun i c =>
                  if c <? 128 then [ascii_lower c] else unicode_lower s i) s).

Definition get_hashtags_for_topic (topic_text : str) : result (list str) :=
  let topic_text := lower topic_text in
  let category :=
    if any_in [U "fitness"; U "workout"; U "gym"; U "health"] topic_text
    then U "fitness"
    else if any_in [U "food"; U "recipe"; U "cooking"; U "eat"] topic_text
    then U "food"
    else if any_in [U "travel"; U "vacation"; U "trip"] topic_text
    then U "travel"
    else if any_in [U "tech"; U "code"; U "programming"; U "ai"] topic_text
    then U "tech"
    else if any_in [U "art"; U "design"; U "creative"] topic_text
    then U "art"
    else if any_in [U "business"; U "entrepreneur"; U "startup"] topic_text
    then U "business"
    else if any_in [U "music"; U "movie"; U "game"; U "fun"] topic_text
    then U "entertainment"
    else if any_in [U "lifestyle"; U "mindful"; U "balance"] topic_text
    then U "lifestyle"
    else U "general" in
  dict_get looply_hashtags category.

Definition generate_caption (w : World) (topic style : str) : result str :=
  let* template := choice w caption_templates in
  let* hashtags := get_hashtags_for_topic topic in
  let template :=
    if str_eqb style (U "professional") then
      let template :=
        replace (U "vibes hitting different")
                (U "insights resonating strongly") template in
      replace (U "Real talk") (U "Key insight") template
    else if str_eqb style (U "creative") then U "🎨 " ++ template
    else template in
  format template
    [(U "topic", topic); (U "hashtags", join (U " ") (take 5 hashtags))].

Definition get_content_ideas (w : World) (niche : str) : result str :=
  let* ideas := sample w content_ideas 5 in
  let niche_specific :=
    [nl; nl] ++ U "🎯 For " ++ niche ++
    U " creators: Consider sharing industry insights, behind-the-scenes content, or community challenges!" in
  Ok (join [nl]
        (imap (fun i idea =>
                 str_of_Z (Z.of_nat i + 1) ++ U ". " ++ idea) ideas)
      ++ niche_specific).

Definition get_engagement_tips (focus : str) : result str :=
  if dict_mem engagement_strategies focus then
    let* tip := dict_get engagement_strategies focus in
    Ok (U "💡 " ++ tip)
  else
    let tips := U "🚀 **Looply Engagement Mastery:**" ++ [nl; nl] in
    let tips :=
      fold_left
        (fun tips kv =>
           tips ++ U "**" ++ title (replace (U "_") (U " ") (fst kv)) ++
           U ":** " ++ snd kv ++ [nl; nl])
        engagement_strategies tips in
    Ok (tips ++
        U "🌟 Remember: Authentic engagement beats vanity metrics every time!").

Definition analyze_trends (w : World) : result str :=
  let* picked := sample w trends 3 in
  Ok (U "🎭 **Current Looply Trends:**" ++ [nl; nl] ++ join [nl] picked).

(** [parts[-1]] *)
Definition last_item (parts : list str) : result str :=
  match last parts with
  | Some x => Ok x
  | None => Raise IndexError
  end.

Definition learn_hint : str :=
  U "🧠 I can learn! Try: 'learn my niche: fitness' or 'remember posting time: 7 PM'".

Definition chat (self : LooplyLIA) (w : World) (user_input : str)
  : result (str * LooplyLIA) :=
  let user_input := strip (lower user_input) in
  if any_in [U "hello"; U "hi"; U "hey"] user_input then
    let* r := choice w greetings in Ok (r, self)
  else if contains (U "time") user_input then
    Ok (U "⏰ Current time is " ++ strftime_HMS w ++
        U " - Perfect time to create some content!", self)
  else if contains (U "joke") user_input then
    let* r := choice w social_jokes in Ok (r, self)
  else if any_in [U "caption"; U "post idea"; U "create post"] user_input then
    let* topic :=
      if contains (U "about") user_input then
        let* t := last_item (split (U "about") user_input) in Ok (strip t)
      else if contains (U "for") user_input then
        let* t := last_item (split (U "for") user_input) in Ok (strip t)
      else Ok (U "your experience") in
    let* r := generate_caption w topic (U "casual") in Ok (r, self)
  else if contains (U "hashtag") user_input then
    let topic := strip (replace (U "hashtag") [] user_input) in
    let topic := match topic with [] => U "general content" | _ => topic end in
    let* hashtags := get_hashtags_for_topic topic in
    Ok (U "📝 **Hashtag suggestions for " ++ topic ++ U ":**" ++ [nl; nl] ++
        join (U " ") hashtags ++ [nl; nl] ++
        U "💡 Tip: Mix popular and niche hashtags for best reach!", self)
  else if any_in [U "content idea"; U "post suggestion"; U "what to post"]
                 user_input then
    let* niche :=
      if contains (U "for") user_input then
        let* t := last_item (split (U "for") user_input) in Ok (strip t)
      else Ok (U "general") in
    let* ideas := get_content_ideas w niche in
    Ok (U "💡 **Content Ideas for You:**" ++ [nl; nl] ++ ideas, self)
  else if any_in [U "engagement"; U "more likes"; U "more followers"; U "grow"]
                 user_input then
    let* r := get_engagement_tips (U "general") in Ok (r, self)
  else if any_in [U "trend"; U "trending"; U "popular"; U "viral"]
                 user_input then
    let* r := analyze_trends w in Ok (r, self)
  else if any_in [U "performance"; U "analytics"; U "metrics"] user_input then
    Ok (performance_tips, self)
  else if contains (U "learn") user_input || contains (U "remember") user_input
  then Ok (learn_hint, self)
  else if contains (U "upgrade") user_input then
    let self :=
      set_intelligence_level self (intelligence_level self + 1) in
    Ok (U "🚀 Intelligence upgraded to level " ++
        str_of_Z (intelligence_level self) ++
        U "! I'm getting smarter about Looply content creation!", self)
  else if any_in [U "help"; U "commands"; U "what can you do"] user_input then
    Ok (help_text, self)
  else
    let* r := choice w defaults in Ok (r, self).

(** A run of calls to [chat] on one responder, in order. *)
Fixpoint chats (self : LooplyLIA) (calls : list (World * str))
  : result (list str * LooplyLIA) :=
  match calls with
  | [] => Ok ([], self)
  | (w, u) :: rest =>
      let* rs := chat self w u in
      let* rr := chats (snd rs) rest in
      Ok (fst rs :: fst rr, snd rr)
  end.

(** *** The branches of [chat], one by one *)

Definition greeting_intent : intent := fun self w _ =>
  let* r := choice w greetings in Ok (r, self).

Definition time_intent : intent := fun self w _ =>
  Ok (U "⏰ Current time is " ++ strftime_HMS w ++
      U " - Perfect time to create some content!", self).

Definition joke_intent : intent := fun self w _ =>
  let* r := choice w social_jokes in Ok (r, self).

Definition caption_intent : intent := fun self w user_input =>
  let* topic :=
    if contains (U "about") user_input then
      let* t := last_item (split (U "about") user_input) in Ok (strip t)
    else if contains (U "for") user_input then
      let* t := last_item (split (U "for") user_input) in Ok (strip t)
    else Ok (U "your experience") in
  let* r := generate_caption w topic (U "casual") in Ok (r, self).

Definition hashtag_intent : intent := fun self w user_input =>
  let topic := strip (replace (U "hashtag") [] user_input) in
  let topic := match topic with [] => U "general content" | _ => topic end in
  let* hashtags := get_hashtags_for_topic topic in
  Ok (U "📝 **Hashtag suggestions for " ++ topic ++ U ":**" ++ [nl; nl] ++
      join (U " ") hashtags ++ [nl; nl] ++
      U "💡 Tip: Mix popular and niche hashtags for best reach!", self).

Definition content_idea_intent : intent := fun self w user_input =>
  let* niche :=
    if contains (U "for") user_input then
      let* t := last_item (split (U "for") user_input) in Ok (strip t)
    else Ok (U "general") in
  let* ideas := get_content_ideas w niche in
  Ok (U "💡 **Content Ideas for You:**" ++ [nl; nl] ++ ideas, self).

Definition engagement_intent : intent := fun self w _ =>
  let* r := get_engagement_tips (U "general") in Ok (r, self).

Definition trend_intent : intent := fun self w _ =>
  let* r := analyze_trends w in Ok (r, self).

Definition analytics_intent : intent := fun self _ _ =>
  Ok (performance_tips, self).

Definition learn_intent : intent := fun self _ _ => Ok (learn_hint, self).

Definition upgrade_reply (level : Z) : str :=
  U "🚀 Intelligence upgraded to level " ++ str_of_Z level ++
  U "! I'm getting smarter about Looply content creation!".

Definition upgrade_intent : intent := fun self _ _ =>
  let self := set_intelligence_level self (intelligence_level self + 1) in
  Ok (upgrade_reply (intelligence_level self), self).

Definition help_intent : intent := fun self _ _ => Ok (help_text, self).

Definition fallback_intent : intent := fun self w _ =>
  let* r := choice w defaults in Ok (r, self).

(** The rules that come before the upgrade rule, in order. *)
Definition rules_before_upgrade : list (list str * intent) :=
  [ ([U "hello"; U "hi"; U "hey"], greeting_intent);
    ([U "time"], time_intent);
    ([U "joke"], joke_intent);
    ([U "caption"; U "post idea"; U "create post"], caption_intent);
    ([U "hashtag"], hashtag_intent);
    ([U "content idea"; U "post suggestion"; U "what to post"],
     content_idea_intent);
    ([U "engagement"; U "more likes"; U "more followers"; U "grow"],
     engagement_intent);
    ([U "trend"; U "trending"; U "popular"; U "viral"], trend_intent);
    ([U "performance"; U "analytics"; U "metrics"], analytics_intent);
    ([U "learn"; U "remember"], learn_intent) ].

(** The twelve keyword rules of the specification, in its order; the
    thirteenth predicate is the fallback. *)
Definition respond_rules : list (list str * intent) :=
  rules_before_upgrade ++
  [ ([U "upgrade"], upgrade_intent);
    ([U "help"; U "commands"; U "what can you do"], help_intent) ].

(** [respond] as the specification words it: normalize, then answer
    with the first rule that matches, else with the fallback. *)
Definition respond (self : LooplyLIA) (w : World) (utterance : str)
  : result (str * LooplyLIA) :=
  let s := strip (lower utterance) in
  first_match respond_rules fallback_intent s self w s.

(** The utterance gets as far as the upgrade rule: it contains
    [upgrade] and matches no earlier rule. *)
Definition reaches_upgrade (utterance : str) : bool :=
  let s := strip (lower utterance) in
  none_matches rules_before_upgrade s && contains (U "upgrade") s.

(** The category rules of [hashtagsForTopic] as the specification lists
    them; [general] is the category when none matches. *)
Definition category_rules : list (list str * str) :=
  [ ([U "fitness"; U "workout"; U "gym"; U "health"], U "fitness");
    ([U "food"; U "recipe"; U "cooking"; U "eat"], U "food");
    ([U "travel"; U "vacation"; U "trip"], U "travel");
    ([U "tech"; U "code"; U "programming"; U "ai"], U "tech");
    ([U "art"; U "design"; U "creative"], U "art");
    ([U "business"; U "entrepreneur"; U "startup"], U "business");
    ([U "music"; U "movie"; U "game"; U "fun"], U "entertainment");
    ([U "lifestyle"; U "mindful"; U "balance"], U "lifestyle") ].

Definition hashtags_of (category : str) : result (list str) :=
  dict_get looply_hashtags category.



(** *** Shape of the caption templates *)

Definition topic_slot : str := U "{topic}".
Definition hashtags_slot : str := U "{hashtags}".

(** No brace in [s]. *)
Definition plain (s : str) : bool :=
  forallb (fun c => negb (c =? 123) && negb (c =? 125)) s.

(** The template a style makes of a caption template (the [if] of
    [generate_caption]). *)
Definition restyle (style template : str) : str :=
  if str_eqb style (U "professional") then
    replace (U "Real talk") (U "Key insight")
      (replace (U "vibes hitting different")
               (U "insights resonating strongly") template)
  else if str_eqb style (U "creative") then U "🎨 " ++ template
  else template.

(** The text before, between and after the two slots of a template
    that has exactly these two replacement fields, in this order, and
    neither another brace nor a [#] around them. *)
Definition slots (tpl : str) : option (str * str * str) :=
  match split topic_slot tpl with
  | [pre; rest] =>
      match split hashtags_slot rest with
      | [mid; post] =>
          if str_eqb tpl (pre ++ topic_slot ++ mid ++ hashtags_slot ++ post)
             && plain pre && plain mid && plain post
             && (count_hash (pre ++ mid ++ post) =? 0)%nat
          then Some (pre, mid, post)
          else None
      | _ => None
      end
  | _ => None
  end.

(** *** Shape of the end of a caption template *)

(** The template has the two slots, nothing after the hashtags slot and
    a blank right before it: [tail_slots] gives the text before the
    topic and the text between the topic and that blank. *)
Definition tail_slots (tpl : str) : option (str * str) :=
  match slots tpl with
  | Some (pre, mid, []) =>
      match rev mid with
      | c :: front => if c =? 32 then Some (pre, rev front) else None
      | [] => None
      end
  | _ => None
  end.

(** *** The interactive loop, the HTTP handler and the test script *)

(** The text of an exception ([str(e)]) comes from the Python runtime. *)
Variable exn_text : exn -> str.

(** The body of the [while True] loop of [run_interactive] on what
    [input] brings. *)
Definition interactive_turn (lia : LooplyLIA) (w : World) (i : console_input)
  : turn :=
  let prompt := Prompted (U "🎭 You: ") in
  match i with
  | Interrupt => Stop [prompt; Printed ([nl; nl] ++ goodbye)]
  | EndOfInput =>
      Go [prompt; Printed (oops ++ U "EOF when reading a line");
          Printed try_asking] lia
  | Typed line =>
      let user_input := strip line in
      if existsb (str_eqb (lower user_input)) [U "exit"; U "quit"; U "bye"]
      then Stop [prompt; Printed ([nl] ++ goodbye)]
      else
        match user_input with
        | [] => Go [prompt] lia
        | _ =>
            match chat lia w user_input with
            | Ok (r, lia') =>
                Go [prompt; Printed (U "🤖 LIA: " ++ r); Printed []] lia'
            | Raise e =>
                Go [prompt; Printed (oops ++ exn_text e); Printed try_asking]
                   lia
            end
        end
  end.

(** The loop on the inputs that have come so far: what it has written
    and the responder it goes on with, if it has not left the loop. *)
Fixpoint interactive_loop (lia : LooplyLIA)
         (inputs : list (World * console_input))
  : list console_output * option LooplyLIA :=
  match inputs with
  | [] => ([], Some lia)
  | (w, i) :: rest =>
      match interactive_turn lia w i with
      | Stop out => (out, None)
      | Go out lia' =>
          let r := interactive_loop lia' rest in (out ++ fst r, snd r)
      end
  end.

Definition run_interactive (inputs : list (World * console_input))
  : list console_output * option LooplyLIA :=
  let r := interactive_loop (__init__ (U "LIA")) inputs in
  (banner ++ fst r, snd r).

(** The lines of a session that get to [chat]: the typed lines,
    stripped, that are not empty. *)
Fixpoint said (inputs : list (World * console_input)) : list (World * str) :=
  match inputs with
  | [] => []
  | (w, Typed line) :: rest =>
      match strip line with
      | [] => said rest
      | _ => (w, strip line) :: said rest
      end
  | _ :: rest => said rest
  end.

Definition is_exit (line : str) : bool :=
  existsb (str_eqb (lower (strip line))) [U "exit"; U "quit"; U "bye"].

(** The input lets the loop go round again: a typed line that is no
    exit word, or the end of the input. *)
Definition goes_on (c : World * console_input) : bool :=
  match snd c with
  | Typed line => negb (is_exit line)
  | EndOfInput => true
  | Interrupt => false
  end.

(** The part of [do_POST] that answers: the path test and the [try]
    block with its handler, once the body is read. [loaded] is what
    [json.loads(post_data.decode('utf-8'))] gave, the text of the
    exception it raised or the value it returned. The result is the
    response sent, if any, and the responder after the request. The
    reading of [Content-Length] and of the body, which comes before the
    [try], is in [handle_POST] below. *)
Definition do_POST (lia : LooplyLIA) (w : World) (path : str)
           (loaded : str + pyval) : option http_response * LooplyLIA :=
  if str_eqb path (U "/chat") then
    match loaded with
    | inl text => (Some (error_response text), lia)
    | inr data =>
        match data with
        | PDict items =>
            let message :=
              match dict_get items (U "message") with
              | Ok v => v
              | Raise _ => PStr []
              end in
            match message with
            | PStr s =>
                match chat lia w s with
                | Ok (response, lia') =>
                    (Some (ok_response response (intelligence_level lia')),
                     lia')
                | Raise e => (Some (error_response (exn_text e)), lia)
                end
            | _ =>
                (Some (error_response (no_attribute message (U "lower"))),
                 lia)
            end
        | _ => (Some (error_response (no_attribute data (U "get"))), lia)
        end
    end
  else (None, lia).

(** The loop over [test_cases] of [test_lia_functionality]: the list
    [results] it builds (name, status, length of the response) and the
    responder after it; [ws n] is the world of the [n]-th call. The
    printing of the script is left out. *)
Fixpoint run_test_cases (lia : LooplyLIA) (ws : nat -> World) (n : nat)
         (cases : list (str * str))
  : list (str * str * nat) * LooplyLIA :=
  match cases with
  | [] => ([], lia)
  | (test_name, query) :: rest =>
      match chat lia (ws n) query with
      | Ok (response, lia') =>
          let r := run_test_cases lia' ws (S n) rest in
          ((test_name, U "✅ PASS", length response) :: fst r, snd r)
      | Raise _ =>
          let r := run_test_cases lia ws (S n) rest in
          ((test_name, U "❌ FAIL", 0%nat) :: fst r, snd r)
      end
  end.

(** The value [test_lia_functionality] returns. *)
Definition test_lia_functionality (ws : nat -> World) : bool :=
  let lia := __init__ (U "LIA") in
  let r := run_test_cases lia ws 0 test_cases in
  let learnt := learn (snd r) (U "favorite_color") (U "purple") in
  let recall_result := recall (snd learnt) (U "favorite_color") in
  let results :=
    fst r ++ [(U "Learning/Recall", U "✅ PASS",
               length (fst learnt ++ recall_result))] in
  let passed :=
    length (List.filter (fun r => contains (U "PASS") (snd (fst r))) results) in
  let total := length results in
  (passed =? total)%nat.

(** *** Shape of a caption template around the topic *)

(** The template has the two slots, a white-space character right
    before the topic slot, a blank right before the hashtags slot and
    nothing after it: [spaced_slots] gives the text before that white
    space, the white space itself, and the text between the topic and the
    blank. *)
Definition spaced_slots (tpl : str) : option (str * N * str) :=
  match tail_slots tpl with
  | Some (pre, front) =>
      match rev pre with
      | c :: before =>
          if isspace c then Some (rev before, c, front) else None
      | [] => None
      end
  | None => None
  end.

(** *** What a session writes *)

(** What the loop writes on [inputs] when no exit word is typed and no
    interrupt comes, given the replies of [chat] to the lines that get to
    it, in order: the prompt for a blank line; the prompt, the reply after
    the robot label and an empty line for any other line; the prompt and
    the two lines of the error handler at the end of the input. *)
Fixpoint transcript (inputs : list (World * console_input))
         (replies : list str) : list console_output :=
  match inputs with
  | [] => []
  | (_, Typed line) :: rest =>
      match strip line, replies with
      | [], _ => Prompted (U "🎭 You: ") :: transcript rest replies
      | _ :: _, r :: replies' =>
          Prompted (U "🎭 You: ") :: Printed (U "🤖 LIA: " ++ r) :: Printed []
            :: transcript rest replies'
      | _ :: _, [] => []
      end
  | (_, EndOfInput) :: rest =>
      Prompted (U "🎭 You: ")
        :: Printed (oops ++ U "EOF when reading a line")
        :: Printed try_asking :: transcript rest replies
  | (_, Interrupt) :: _ => []
  end.

(** *** [do_POST] from its first line *)



(** ** Substrings and stripping *)

Lemma starts_with_spec (n h : str) :
  starts_with n h = true <-> exists q, h = n ++ q.
Proof.
  revert h. induction n as [|a n IH]; intros h.
  - simpl. split; [intros _; by exists h | done].
  - destruct h as [|b h]; simpl.
    + split; [done | intros [q Hq]; discriminate].
    + rewrite andb_true_iff, N.eqb_eq, IH. split.
      * intros [-> [q ->]]. by exists q.
      * intros [q Hq]. injection Hq as -> ->. split; [done | by exists q].
Qed.

Lemma contains_spec (n h : str) :
  contains n h = true <-> exists p q, h = p ++ n ++ q.
Proof.
  induction h as [|b h IH].
  - simpl. rewrite orb_false_r, starts_with_spec. split.
    + intros [q Hq]. by exists [], q.
    + intros [p [q Hq]]. destruct p; [by exists q | discriminate].
  - cbn [contains]. rewrite orb_true_iff, starts_with_spec, IH. split.
    + intros [[q Hq] | [p [q Hq]]].
      * by exists [], q.
      * exists (b :: p), q. by rewrite Hq.
    + intros [p [q Hq]]. destruct p as [|c p].
      * left. by exists q.
      * right. injection Hq as -> ->. by exists p, q.
Qed.

Lemma contains_middle (n p q : str) : contains n (p ++ n ++ q) = true.
Proof. apply contains_spec. by exists p, q. Qed.

Lemma contains_refl (n : str) : contains n n = true.
Proof. apply contains_spec. exists [], []. by rewrite app_nil_r. Qed.

Lemma any_in_single (k s : str) : any_in [k] s = contains k s.
Proof. unfold any_in. simpl. apply orb_false_r. Qed.

Lemma any_in_pair (k1 k2 s : str) :
  any_in [k1; k2] s = contains k1 s || contains k2 s.
Proof. unfold any_in. simpl. by rewrite orb_false_r. Qed.

Lemma lstrip_app_visible (p r : str) (c : N) :
  isspace c = false -> lstrip (p ++ c :: r) = lstrip p ++ c :: r.
Proof.
  intros Hc. induction p as [|a p IH]; simpl.
  - by rewrite Hc.
  - destruct (isspace a); [apply IH | done].
Qed.

Lemma rstrip_app_visible (p r : str) (c : N) :
  isspace c = false -> rstrip (p ++ c :: r) = p ++ c :: rstrip r.
Proof.
  intros Hc. unfold rstrip.
  rewrite rev_app_distr. cbn [rev]. rewrite <- app_assoc. cbn [app].
  rewrite lstrip_app_visible by done.
  rewrite rev_app_distr. cbn [rev].
  rewrite rev_involutive.
  by rewrite <- app_assoc.
Qed.

(** A keyword that neither begins nor ends with white space survives
    [strip]: it occurs in the stripped text whenever it occurs in the
    text. *)
Lemma contains_strip (n s : str) (a z : N) (front back : str) :
  n = a :: back -> n = front ++ [z] ->
  isspace a = false -> isspace z = false ->
  contains n s = true -> contains n (strip s) = true.
Proof.
  intros Ha Hz Hva Hvz Hin.
  apply contains_spec in Hin as [p [q ->]].
  unfold strip.
  assert (lstrip (p ++ n ++ q) = lstrip p ++ n ++ q) as ->.
  { rewrite Ha. cbn [app]. by apply lstrip_app_visible. }
  assert (rstrip (lstrip p ++ n ++ q) = lstrip p ++ n ++ rstrip q) as ->.
  { rewrite Hz. rewrite <- !app_assoc. cbn [app].
    rewrite (app_assoc (lstrip p) front (z :: q)).
    rewrite rstrip_app_visible by done.
    by rewrite <- app_assoc. }
  apply contains_middle.
Qed.

(** ** Random picks, splitting and first match *)

Lemma choice_ok {A} (w : World) (seq : list A) :
  seq <> [] -> exists x, choice w seq = Ok x /\ In x seq.
Proof.
  intros Hne. unfold choice, randbelow.
  destruct seq as [|a seq]; [done |].
  set (l := a :: seq).
  assert (draw w 0 mod length l < length l)%nat as Hlt
    by (apply Nat.mod_upper_bound; subst l; simpl; lia).
  apply lookup_lt_is_Some_2 in Hlt as [x Hx].
  rewrite Hx. exists x. split; [done |].
  apply list_elem_of_In. by eapply list_elem_of_lookup_2.
Qed.

Lemma sample_loop_ok {A} (w : World) (todo : nat) :
  forall (pool : list A) (n i : nat),
    length pool = n -> (i + todo <= n)%nat ->
    exists l, sample_loop w pool n i todo = Ok l /\ length l = todo.
Proof.
  induction todo as [|t IH]; intros pool n i Hlen Hle.
  - by exists [].
  - cbn [sample_loop]. unfold randbelow.
    assert (draw w i mod (n - i) < n - i)%nat as Hj
      by (apply Nat.mod_upper_bound; lia).
    destruct (lookup_lt_is_Some_2 pool (draw w i mod (n - i))) as [x Hx];
      [lia |].
    destruct (lookup_lt_is_Some_2 pool (n - i - 1)) as [y Hy]; [lia |].
    rewrite Hx, Hy.
    destruct (IH (<[(draw w i mod (n - i))%nat := y]> pool) n (S i))
      as [l [Hl Hlen']];
      [by rewrite length_insert | lia |].
    rewrite Hl. exists (x :: l). split; [done | simpl; lia].
Qed.

Lemma sample_ok {A} (w : World) (population : list A) (k : nat) :
  (k <= length population)%nat ->
  exists l, sample w population k = Ok l /\ length l = k.
Proof.
  intros Hk. unfold sample.
  destruct (Nat.leb_spec k (length population)); [| lia].
  by apply sample_loop_ok.
Qed.

Lemma split_go_nonempty (sep s : str) :
  forall skip cur, split_go sep s skip cur <> [].
Proof.
  induction s as [|c r IH]; intros skip cur; simpl; [done |].
  destruct skip; [| apply IH].
  destruct (starts_with sep (c :: r)); [done | apply IH].
Qed.

Lemma last_item_split (sep s : str) :
  exists t, last_item (split sep s) = Ok t.
Proof.
  unfold last_item, split.
  destruct (last (split_go sep s 0 [])) as [t|] eqn:Hlast; [by exists t |].
  apply last_None in Hlast. by apply split_go_nonempty in Hlast.
Qed.

Lemma first_match_ind {H} (P : H -> Prop) (rules : list (list str * H))
      (fallback : H) (s : str) :
  Forall (fun rule => P (snd rule)) rules -> P fallback ->
  P (first_match rules fallback s).
Proof.
  intros Hall Hfb. induction Hall as [|[kws h] rest Hh _ IH]; simpl; [done |].
  by destruct (any_in kws s).
Qed.

Lemma first_match_app {H} (pre post : list (list str * H)) (fallback : H)
      (s : str) :
  first_match (pre ++ post) fallback s =
  if none_matches pre s then first_match post fallback s
  else first_match pre fallback s.
Proof.
  induction pre as [|[kws h] pre IH]; simpl; [done |].
  destruct (any_in kws s); simpl; [done | apply IH].
Qed.

(** The rule that answers is the first one that matches. *)
Lemma first_match_at {H} (pre post : list (list str * H)) (kws : list str)
      (h fallback : H) (s : str) :
  none_matches pre s = true -> any_in kws s = true ->
  first_match (pre ++ (kws, h) :: post) fallback s = h.
Proof.
  intros Hpre Hk. rewrite first_match_app, Hpre. simpl. by rewrite Hk.
Qed.

Lemma first_match_none {H} (rules : list (list str * H)) (fallback : H)
      (s : str) :
  none_matches rules s = true -> first_match rules fallback s = fallback.
Proof.
  intros Hn. rewrite <- (app_nil_r rules), first_match_app, Hn. done.
Qed.

Lemma str_eqb_eq (a b : str) : str_eqb a b = true <-> a = b.
Proof.
  revert b. induction a as [|x a IH]; intros [|y b]; simpl; try done.
  rewrite andb_true_iff, N.eqb_eq, IH. split.
  - by intros [-> ->].
  - intros Heq. by injection Heq.
Qed.

Lemma dict_get_In {A} (d : list (str * A)) (k : str) (v : A) :
  dict_get d k = Ok v -> In v (map snd d).
Proof.
  induction d as [|[k' v'] d IH]; simpl; [done |].
  destruct (str_eqb k k').
  - intros [= ->]. by left.
  - intros Hd. right. by apply IH.
Qed.

(** ** [chat] and [get_hashtags_for_topic] as dispatch tables *)

Lemma chat_dispatch (self : LooplyLIA) (w : World) (u : str) :
  chat self w u = respond self w u.
Proof.
  unfold chat, respond, respond_rules, rules_before_upgrade.
  cbv zeta. set (s := strip (lower u)).
  cbn [app first_match].
  unfold greeting_intent, time_intent, joke_intent, caption_intent,
    hashtag_intent, content_idea_intent, engagement_intent, trend_intent,
    analytics_intent, learn_intent, upgrade_intent, upgrade_reply,
    help_intent, fallback_intent.
  cbv beta zeta.
  rewrite !any_in_single, any_in_pair.
  repeat match goal with
         | |- (if ?b then _ else _) = _ => destruct b; [reflexivity |]
         end.
  reflexivity.
Qed.

Lemma get_hashtags_dispatch (t : str) :
  get_hashtags_for_topic t =
  hashtags_of (first_match category_rules (U "general") (lower t)).
Proof. reflexivity. Qed.

Lemma dict_get_pair {A} (d : list (str * A)) (k : str) (v : A) :
  dict_get d k = Ok v -> In (k, v) d.
Proof.
  induction d as [|[k' v'] d IH]; simpl; [done |].
  destruct (str_eqb k k') eqn:Hk.
  - apply str_eqb_eq in Hk as ->. intros [= ->]. by left.
  - intros Hd. right. by apply IH.
Qed.

Lemma hashtags_of_rules (s : str) :
  exists l, hashtags_of (first_match category_rules (U "general") s) = Ok l.
Proof.
  apply (first_match_ind (fun c => exists l, hashtags_of c = Ok l)).
  - repeat constructor; eexists; vm_compute; reflexivity.
  - eexists; vm_compute; reflexivity.
Qed.

Lemma get_hashtags_ok (t : str) :
  exists l, get_hashtags_for_topic t = Ok l /\
            In l (map snd looply_hashtags).
Proof.
  rewrite get_hashtags_dispatch.
  destruct (hashtags_of_rules (lower t)) as [l Hl].
  exists l. split; [done |]. by eapply dict_get_In.
Qed.

(** ** Formatting of the caption templates *)

Lemma plain_app (a b : str) : plain (a ++ b) = plain a && plain b.
Proof. apply forallb_app. Qed.

Lemma count_hash_app (a b : str) :
  count_hash (a ++ b) = (count_hash a + count_hash b)%nat.
Proof. unfold count_hash. by rewrite List.filter_app, length_app. Qed.

Lemma format_go_plain (kw : list (str * str)) (pre r : str) :
  plain pre = true ->
  format_go kw (pre ++ r) None =
  let* rest := format_go kw r None in Ok (pre ++ rest).
Proof.
  induction pre as [|c pre IH]; intros Hp.
  - simpl. by destruct (format_go kw r None).
  - simpl in Hp. apply andb_true_iff in Hp as [Hc Hp].
    apply andb_true_iff in Hc as [Hopen Hclose].
    apply negb_true_iff in Hopen, Hclose.
    cbn [app format_go]. rewrite Hopen, Hclose, (IH Hp).
    by destruct (format_go kw r None).
Qed.

Lemma format_go_topic (topic hs r : str) :
  format_go [(U "topic", topic); (U "hashtags", hs)] (topic_slot ++ r) None =
  let* rest := format_go [(U "topic", topic); (U "hashtags", hs)] r None in
  Ok (topic ++ rest).
Proof. reflexivity. Qed.

Lemma format_go_hashtags (topic hs r : str) :
  format_go [(U "topic", topic); (U "hashtags", hs)] (hashtags_slot ++ r) None =
  let* rest := format_go [(U "topic", topic); (U "hashtags", hs)] r None in
  Ok (hs ++ rest).
Proof. reflexivity. Qed.

Lemma format_two_slots (pre mid post topic hs : str) :
  plain pre = true -> plain mid = true -> plain post = true ->
  format (pre ++ topic_slot ++ mid ++ hashtags_slot ++ post)
         [(U "topic", topic); (U "hashtags", hs)] =
  Ok (pre ++ topic ++ mid ++ hs ++ post).
Proof.
  intros Hpre Hmid Hpost. unfold format.
  rewrite (format_go_plain _ pre) by done.
  rewrite format_go_topic.
  rewrite (format_go_plain _ mid) by done.
  rewrite format_go_hashtags.
  rewrite <- (app_nil_r post) at 1.
  rewrite (format_go_plain _ post) by done.
  simpl. by rewrite app_nil_r.
Qed.

Lemma slots_sound (tpl pre mid post : str) :
  slots tpl = Some (pre, mid, post) ->
  tpl = pre ++ topic_slot ++ mid ++ hashtags_slot ++ post /\
  plain pre = true /\ plain mid = true /\ plain post = true /\
  count_hash (pre ++ mid ++ post) = 0%nat.
Proof.
  unfold slots.
  destruct (split topic_slot tpl) as [|a [|rest [|? ?]]]; try done.
  destruct (split hashtags_slot rest) as [|b [|c [|? ?]]]; try done.
  destruct (_ && _) eqn:Hck; [| done].
  intros [= <- <- <-].
  repeat (apply andb_true_iff in Hck as [Hck ?]).
  apply str_eqb_eq in Hck. by apply Nat.eqb_eq in H.
Qed.

Lemma caption_templates_slots (style tpl : str) :
  In tpl caption_templates ->
  exists pre mid post, slots (restyle style tpl) = Some (pre, mid, post).
Proof.
  assert (forall f : str -> str,
             forallb (fun t => match slots (f t) with
                               | Some _ => true
                               | None => false
                               end) caption_templates = true ->
             In tpl caption_templates ->
             exists pre mid post, slots (f tpl) = Some (pre, mid, post))
    as Hcheck.
  { intros f Hall Hin. rewrite forallb_forall in Hall.
    specialize (Hall tpl Hin).
    destruct (slots (f tpl)) as [[[pre mid] post]|]; [| done].
    by exists pre, mid, post. }
  unfold restyle.
  destruct (str_eqb style (U "professional")).
  - apply (Hcheck (fun t => replace _ _ (replace _ _ t))).
    vm_compute. reflexivity.
  - destruct (str_eqb style (U "creative")).
    + apply (Hcheck (fun t => _ ++ t)). vm_compute. reflexivity.
    + apply (Hcheck (fun t => t)). vm_compute. reflexivity.
Qed.

Lemma hashtag_lists_five (l : list str) :
  In l (map snd looply_hashtags) ->
  count_hash (join (U " ") (take 5 l)) = 5%nat.
Proof.
  intros Hin.
  assert (forallb (fun l => (count_hash (join (U " ") (take 5 l)) =? 5)%nat)
                  (map snd looply_hashtags) = true) as Hall
    by (vm_compute; reflexivity).
  rewrite forallb_forall in Hall. by apply Nat.eqb_eq, Hall.
Qed.

(** The caption is the styled template with the topic and the first
    five hashtags of its category in the two slots. *)
Lemma generate_caption_shape (w : World) (topic style : str) :
  exists pre mid post hs,
    generate_caption w topic style =
      Ok (pre ++ topic ++ mid ++ join (U " ") (take 5 hs) ++ post) /\
    count_hash (pre ++ mid ++ post) = 0%nat /\
    In hs (map snd looply_hashtags).
Proof.
  unfold generate_caption.
  destruct (choice_ok w caption_templates) as [tpl [Htpl Hin]]; [done |].
  destruct (get_hashtags_ok topic) as [hs [Hhs Hhin]].
  rewrite Htpl, Hhs. cbn [bind].
  destruct (caption_templates_slots style tpl Hin) as [pre [mid [post Hs]]].
  apply slots_sound in Hs as (Heq & Hpre & Hmid & Hpost & Hcount).
  exists pre, mid, post, hs. split; [| done].
  fold (restyle style tpl). rewrite Heq. by apply format_two_slots.
Qed.

(** ** Hashtag tokens *)

Lemma is_hashtag_count (t : str) :
  (length (List.filter is_hashtag [t]) <= count_hash t)%nat.
Proof.
  destruct t as [|c t]; simpl; [lia |].
  unfold count_hash. simpl. destruct (c =? hash); simpl; lia.
Qed.

Lemma tokens_go_count (s : str) :
  forall cur,
    (length (List.filter is_hashtag (tokens_go s cur))
     <= count_hash (rev cur ++ s))%nat.
Proof.
  induction s as [|c r IH]; intros cur.
  - rewrite app_nil_r. cbn [tokens_go].
    destruct cur as [|a cur]; [simpl; lia | apply is_hashtag_count].
  - cbn [tokens_go]. rewrite count_hash_app.
    change (c :: r) with ([c] ++ r). rewrite (count_hash_app [c]).
    destruct (isspace c).
    + specialize (IH []). cbn [rev app] in IH.
      destruct cur as [|a cur]; [lia |].
      change (rev (a :: cur) :: tokens_go r [])
        with ([rev (a :: cur)] ++ tokens_go r []).
      rewrite List.filter_app, length_app.
      pose proof (is_hashtag_count (rev (a :: cur))). lia.
    + specialize (IH (c :: cur)). cbn [rev] in IH.
      rewrite <- app_assoc, !count_hash_app in IH. lia.
Qed.

Lemma hashtag_tokens_count (s : str) : (hashtag_tokens s <= count_hash s)%nat.
Proof. apply (tokens_go_count s []). Qed.

(** ** The branches of [chat] *)

Lemma greeting_blind (w : World) (s : str) : state_blind greeting_intent w s.
Proof.
  destruct (choice_ok w greetings) as [x [Hx _]]; [done |].
  exists x. intros self. unfold greeting_intent. by rewrite Hx.
Qed.

Lemma time_blind (w : World) (s : str) : state_blind time_intent w s.
Proof. by eexists. Qed.

Lemma joke_blind (w : World) (s : str) : state_blind joke_intent w s.
Proof.
  destruct (choice_ok w social_jokes) as [x [Hx _]]; [done |].
  exists x. intros self. unfold joke_intent. by rewrite Hx.
Qed.

Lemma caption_blind (w : World) (s : str) : state_blind caption_intent w s.
Proof.
  unfold state_blind, caption_intent.
  assert (exists topic,
             (if contains (U "about") s
              then let* t := last_item (split (U "about") s) in Ok (strip t)
              else if contains (U "for") s
                   then let* t := last_item (split (U "for") s) in
                        Ok (strip t)
                   else Ok (U "your experience")) = Ok topic)
    as [topic ->].
  { destruct (contains (U "about") s).
    - destruct (last_item_split (U "about") s) as [t ->]. by eexists.
    - destruct (contains (U "for") s); [| by eexists].
      destruct (last_item_split (U "for") s) as [t ->]. by eexists. }
  cbn [bind].
  destruct (generate_caption_shape w topic (U "casual"))
    as (pre & mid & post & hs & -> & _).
  by eexists.
Qed.

Lemma hashtag_blind (w : World) (s : str) : state_blind hashtag_intent w s.
Proof.
  unfold state_blind, hashtag_intent. cbv zeta.
  match goal with
  | |- context [get_hashtags_for_topic ?t] =>
      destruct (get_hashtags_ok t) as [hs [-> _]]
  end.
  by eexists.
Qed.

Lemma get_content_ideas_ok (w : World) (niche : str) :
  exists r, get_content_ideas w niche = Ok r.
Proof.
  unfold get_content_ideas.
  destruct (sample_ok w content_ideas 5) as [l [-> _]];
    [vm_compute; lia |].
  by eexists.
Qed.

Lemma content_idea_blind (w : World) (s : str) :
  state_blind content_idea_intent w s.
Proof.
  unfold state_blind, content_idea_intent.
  assert (exists niche,
             (if contains (U "for") s
              then let* t := last_item (split (U "for") s) in Ok (strip t)
              else Ok (U "general")) = Ok niche) as [niche ->].
  { destruct (contains (U "for") s); [| by eexists].
    destruct (last_item_split (U "for") s) as [t ->]. by eexists. }
  cbn [bind].
  destruct (get_content_ideas_ok w niche) as [r ->].
  by eexists.
Qed.

Lemma get_engagement_tips_general :
  exists r, get_engagement_tips (U "general") = Ok r.
Proof.
  unfold get_engagement_tips.
  replace (dict_mem engagement_strategies (U "general")) with false
    by (vm_compute; reflexivity).
  by eexists.
Qed.

Lemma engagement_blind (w : World) (s : str) :
  state_blind engagement_intent w s.
Proof.
  destruct get_engagement_tips_general as [r Hr].
  exists r. intros self. unfold engagement_intent. by rewrite Hr.
Qed.

Lemma trend_blind (w : World) (s : str) : state_blind trend_intent w s.
Proof.
  unfold state_blind, trend_intent, analyze_trends.
  destruct (sample_ok w trends 3) as [l [-> _]]; [vm_compute; lia |].
  by eexists.
Qed.

Lemma fallback_blind (w : World) (s : str) : state_blind fallback_intent w s.
Proof.
  destruct (choice_ok w defaults) as [x [Hx _]]; [done |].
  exists x. intros self. unfold fallback_intent. by rewrite Hx.
Qed.

Lemma rules_before_upgrade_blind (w : World) (s : str) :
  Forall (fun rule => state_blind (snd rule) w s) rules_before_upgrade.
Proof.
  unfold rules_before_upgrade.
  repeat match goal with
         | |- Forall _ _ => constructor
         end; cbn [snd].
  - apply greeting_blind.
  - apply time_blind.
  - apply joke_blind.
  - apply caption_blind.
  - apply hashtag_blind.
  - apply content_idea_blind.
  - apply engagement_blind.
  - apply trend_blind.
  - by eexists.
  - by eexists.
Qed.

(** Either the utterance reaches the upgrade rule, and [chat] is the
    upgrade branch, or it does not, and [chat] neither reads nor writes
    the responder. *)
Lemma chat_cases (w : World) (u : str) :
  (reaches_upgrade u = true /\
   forall self, chat self w u = upgrade_intent self w (strip (lower u))) \/
  (reaches_upgrade u = false /\
   exists r, forall self, chat self w u = Ok (r, self)).
Proof.
  unfold reaches_upgrade. cbv zeta.
  set (s := strip (lower u)).
  assert (forall self,
             chat self w u =
             first_match respond_rules fallback_intent s self w s) as Hchat.
  { intros self. by rewrite chat_dispatch. }
  unfold respond_rules in Hchat.
  destruct (none_matches rules_before_upgrade s) eqn:Hnone.
  - cbn [andb]. destruct (contains (U "upgrade") s) eqn:Hup.
    + left. split; [done |]. intros self. rewrite Hchat.
      rewrite first_match_at; [done | done |].
      by rewrite any_in_single.
    + right. split; [done |].
      assert (state_blind
                (first_match
                   (rules_before_upgrade ++
                    [([U "upgrade"], upgrade_intent);
                     ([U "help"; U "commands"; U "what can you do"],
                      help_intent)]) fallback_intent s) w s) as [r Hr].
      { rewrite first_match_app, Hnone. cbn [first_match].
        rewrite any_in_single, Hup.
        destruct (any_in _ s); [by eexists | apply fallback_blind]. }
      exists r. intros self. by rewrite Hchat.
  - right. split; [done |].
    assert (state_blind
              (first_match
                 (rules_before_upgrade ++
                  [([U "upgrade"], upgrade_intent);
                   ([U "help"; U "commands"; U "what can you do"],
                    help_intent)]) fallback_intent s) w s) as [r Hr].
    { rewrite first_match_app, Hnone.
      apply (first_match_ind (fun h => state_blind h w s)).
      - apply rules_before_upgrade_blind.
      - apply fallback_blind. }
    exists r. intros self. by rewrite Hchat.
Qed.

Lemma visible_ends_strip (k s : str) :
  visible_ends k = true ->
  contains k s = true -> contains k (strip s) = true.
Proof.
  unfold visible_ends. intros Hv.
  destruct k as [|a back]; [done |].
  destruct (rev (a :: back)) as [|z m] eqn:Hrev; [done |].
  apply andb_true_iff in Hv as [Ha Hz]. apply negb_true_iff in Ha, Hz.
  apply (contains_strip (a :: back) s a z (rev m) back); try done.
  rewrite <- (rev_involutive (a :: back)), Hrev. done.
Qed.

Lemma any_in_strip (kws : list str) (s : str) :
  forallb visible_ends kws = true ->
  any_in kws s = true -> any_in kws (strip s) = true.
Proof.
  unfold any_in. intros Hv Hin.
  apply existsb_exists in Hin as [k [Hk Hc]].
  apply existsb_exists. exists k. split; [done |].
  rewrite forallb_forall in Hv. apply visible_ends_strip; auto.
Qed.

(** ** The ends of a caption and its hashtag tokens *)

Lemma tail_slots_sound (tpl pre front : str) :
  tail_slots tpl = Some (pre, front) ->
  tpl = pre ++ topic_slot ++ (front ++ U " ") ++ hashtags_slot /\
  plain pre = true /\ plain (front ++ U " ") = true /\
  count_hash (pre ++ front) = 0%nat.
Proof.
  unfold tail_slots.
  destruct (slots tpl) as [[[pre' mid] post]|] eqn:Hs; [| done].
  destruct post; [| done].
  destruct (rev mid) as [|c f] eqn:Hrev; [done |].
  destruct (N.eqb_spec c 32) as [-> |]; [| done].
  intros [= <- <-].
  assert (mid = rev f ++ U " ") as ->.
  { rewrite <- (rev_involutive mid), Hrev. reflexivity. }
  apply slots_sound in Hs as (Heq & Hpre & Hmid & _ & Hcount).
  rewrite app_nil_r in Heq. split; [exact Heq |].
  split; [exact Hpre |]. split; [exact Hmid |].
  rewrite !count_hash_app in *. lia.
Qed.

Lemma caption_templates_tail (style tpl : str) :
  In tpl caption_templates ->
  exists pre front, tail_slots (restyle style tpl) = Some (pre, front).
Proof.
  assert (forall f : str -> str,
             forallb (fun t => match tail_slots (f t) with
                               | Some _ => true
                               | None => false
                               end) caption_templates = true ->
             In tpl caption_templates ->
             exists pre front, tail_slots (f tpl) = Some (pre, front))
    as Hcheck.
  { intros f Hall Hin. rewrite forallb_forall in Hall.
    specialize (Hall tpl Hin).
    destruct (tail_slots (f tpl)) as [[pre front]|]; [| done].
    by exists pre, front. }
  unfold restyle.
  destruct (str_eqb style (U "professional")).
  - apply (Hcheck (fun t => replace _ _ (replace _ _ t))).
    vm_compute. reflexivity.
  - destruct (str_eqb style (U "creative")).
    + apply (Hcheck (fun t => _ ++ t)). vm_compute. reflexivity.
    + apply (Hcheck (fun t => t)). vm_compute. reflexivity.
Qed.

Lemma tokens_go_app_space (a b : str) (c : N) :
  isspace c = true ->
  forall cur, tokens_go (a ++ c :: b) cur = tokens_go a cur ++ tokens_go b [].
Proof.
  intros Hc. induction a as [|x a IH]; intros cur.
  - cbn [app tokens_go]. rewrite Hc. by destruct cur.
  - cbn [app tokens_go]. destruct (isspace x).
    + destruct cur; by rewrite IH.
    + apply IH.
Qed.

Lemma no_hash_no_hashtag (s : str) :
  count_hash s = 0%nat -> List.filter is_hashtag (tokens s) = [].
Proof.
  intros Hc. pose proof (hashtag_tokens_count s) as Hle.
  unfold hashtag_tokens in Hle. rewrite Hc in Hle.
  destruct (List.filter is_hashtag (tokens s)); [done |].
  cbn [length] in Hle. lia.
Qed.

Lemma hashtag_lists_tokens (l : list str) :
  In l (map snd looply_hashtags) ->
  List.filter is_hashtag (tokens (join (U " ") (take 5 l))) = take 5 l /\
  length (take 5 l) = 5%nat.
Proof.
  intros Hin.
  assert (Forall (fun l =>
                    List.filter is_hashtag (tokens (join (U " ") (take 5 l)))
                    = take 5 l /\ length (take 5 l) = 5%nat)
                 (map snd looply_hashtags)) as Hall.
  { unfold looply_hashtags. cbn [map snd].
    repeat match goal with
           | |- Forall _ _ => constructor
           end; split; vm_compute; reflexivity. }
  rewrite Forall_forall in Hall. by apply Hall, list_elem_of_In.
Qed.

Lemma spaced_slots_sound (tpl before front : str) (c : N) :
  spaced_slots tpl = Some (before, c, front) ->
  tpl = (before ++ [c]) ++ topic_slot ++ (front ++ U " ") ++ hashtags_slot /\
  plain (before ++ [c]) = true /\ plain (front ++ U " ") = true /\
  isspace c = true /\
  count_hash before = 0%nat /\ count_hash front = 0%nat.
Proof.
  unfold spaced_slots.
  destruct (tail_slots tpl) as [[pre front']|] eqn:Hs; [| discriminate].
  destruct (rev pre) as [|c' b] eqn:Hrev; [discriminate |].
  destruct (isspace c') eqn:Hc; [| discriminate].
  intros [= <- <- <-].
  assert (pre = rev b ++ [c']) as ->.
  { rewrite <- (rev_involutive pre), Hrev. reflexivity. }
  apply tail_slots_sound in Hs as (Heq & Hpre & Hmid & Hcount).
  rewrite !count_hash_app in Hcount.
  repeat split; try assumption; lia.
Qed.

Lemma caption_templates_spaced (style tpl : str) :
  In tpl caption_templates ->
  exists before c front,
    spaced_slots (restyle style tpl) = Some (before, c, front).
Proof.
  assert (forall f : str -> str,
             forallb (fun t => match spaced_slots (f t) with
                               | Some _ => true
                               | None => false
                               end) caption_templates = true ->
             In tpl caption_templates ->
             exists before c front,
               spaced_slots (f tpl) = Some (before, c, front))
    as Hcheck.
  { intros f Hall Hin. rewrite forallb_forall in Hall.
    specialize (Hall tpl Hin).
    destruct (spaced_slots (f tpl)) as [[[before c] front]|];
      [| discriminate].
    by exists before, c, front. }
  unfold restyle.
  destruct (str_eqb style (U "professional")).
  - apply (Hcheck (fun t => replace _ _ (replace _ _ t))).
    vm_compute. reflexivity.
  - destruct (str_eqb style (U "creative")).
    + apply (Hcheck (fun t => _ ++ t)). vm_compute. reflexivity.
    + apply (Hcheck (fun t => t)). vm_compute. reflexivity.
Qed.

(** The caption is the text of the template with the topic after a
    white-space character and the first five hashtags of its category
    after a blank, at the end. *)
Lemma generate_caption_spaced (w : World) (topic style : str) :
  exists before c front hs,
    isspace c = true /\
    count_hash before = 0%nat /\ count_hash front = 0%nat /\
    In hs (map snd looply_hashtags) /\
    generate_caption w topic style =
      Ok (before ++ c :: topic ++ front ++ 32 :: join (U " ") (take 5 hs)).
Proof.
  unfold generate_caption.
  destruct (choice_ok w caption_templates) as [tpl [Htpl Hin]];
    [discriminate |].
  destruct (get_hashtags_ok topic) as [hs [Hhs Hhin]].
  rewrite Htpl, Hhs. cbn [bind].
  destruct (caption_templates_spaced style tpl Hin)
    as (before & c & front & Hs).
  apply spaced_slots_sound in Hs as (Heq & Hpre & Hmid & Hc & Hb & Hf).
  exists before, c, front, hs.
  repeat (split; [assumption |]).
  fold (restyle style tpl). rewrite Heq.
  rewrite <- (app_nil_r hashtags_slot).
  rewrite format_two_slots; [| assumption | assumption | reflexivity].
  rewrite app_nil_r, <- !app_assoc. reflexivity.
Qed.

Lemma is_hashtag_app (t s : str) :
  t <> [] -> is_hashtag (t ++ s) = is_hashtag t.
Proof. destruct t; [contradiction | reflexivity]. Qed.

(** Text without [#] that follows changes no count of hashtag tokens:
    it lengthens the token under way or adds tokens that start with
    something else. *)
Lemma hashtag_count_no_hash (b : str) :
  count_hash b = 0%nat ->
  forall cur,
    length (List.filter is_hashtag (tokens_go b cur)) =
    length (List.filter is_hashtag (tokens_go [] cur)).
Proof.
  induction b as [|c r IH]; intros Hb cur; [reflexivity |].
  change (c :: r) with ([c] ++ r) in Hb. rewrite count_hash_app in Hb.
  assert ((c =? hash) = false) as Hc.
  { unfold count_hash in Hb. cbn [List.filter] in Hb.
    destruct (c =? hash); [cbn [length app] in Hb; lia | reflexivity]. }
  assert (count_hash r = 0%nat) as Hr by lia.
  cbn [tokens_go]. destruct (isspace c).
  - destruct cur as [|a cur].
    + rewrite (IH Hr []). reflexivity.
    + cbn [List.filter].
      destruct (is_hashtag (rev (a :: cur))); cbn [length];
        rewrite (IH Hr []); reflexivity.
  - rewrite (IH Hr (c :: cur)). cbn [tokens_go].
    destruct cur as [|a cur].
    + cbn [rev app List.filter is_hashtag]. rewrite Hc. reflexivity.
    + cbn [List.filter]. change (rev (c :: a :: cur))
        with (rev (a :: cur) ++ [c]).
      rewrite is_hashtag_app.
      * destruct (is_hashtag (rev (a :: cur))); reflexivity.
      * cbn [rev]. intros Hnil. by apply app_eq_nil in Hnil as [_ ?].
Qed.

Lemma hashtag_count_app_no_hash (a b : str) :
  count_hash b = 0%nat ->
  forall cur,
    length (List.filter is_hashtag (tokens_go (a ++ b) cur)) =
    length (List.filter is_hashtag (tokens_go a cur)).
Proof.
  intros Hb. induction a as [|x a IH]; intros cur.
  - apply hashtag_count_no_hash, Hb.
  - cbn [app tokens_go]. destruct (isspace x).
    + destruct cur as [|y cur]; [apply IH |].
      cbn [List.filter].
      destruct (is_hashtag (rev (y :: cur))); cbn [length];
        rewrite IH; reflexivity.
    + apply IH.
Qed.

(** The hashtag tokens of a caption are those of its topic and those
    of its hashtags. *)
Lemma caption_hashtag_tokens (before topic front tags : str) (c : N) :
  isspace c = true ->
  count_hash before = 0%nat -> count_hash front = 0%nat ->
  hashtag_tokens (before ++ c :: topic ++ front ++ 32 :: tags) =
  (hashtag_tokens topic + hashtag_tokens tags)%nat.
Proof.
  intros Hc Hb Hf. unfold hashtag_tokens, tokens.
  rewrite tokens_go_app_space by exact Hc.
  rewrite (app_assoc topic front (32 :: tags)).
  rewrite tokens_go_app_space by reflexivity.
  rewrite !List.filter_app, !length_app.
  fold (tokens before). rewrite (no_hash_no_hashtag before Hb).
  rewrite (hashtag_count_app_no_hash topic front Hf []).
  reflexivity.
Qed.

(** ** The properties of the specification *)

(** C1. [chat] normalizes the utterance (lower case, then strip) and
    answers with the first of the twelve keyword rules, taken in the order
    greeting, time, joke, caption, hashtag, content idea, engagement,
    trend, analytics, learn/remember, upgrade, help, one of whose keywords
    occurs in the normalized utterance, and with the fallback when none
    does; hence, when an utterance matches several rules, the earliest
    one determines the reply. *)
Theorem C1_chat_first_match (self : LooplyLIA) (w : World) (u : str) :
  chat self w u =
    first_match respond_rules fallback_intent (strip (lower u))
                self w (strip (lower u)) /\
  map snd respond_rules =
    [ greeting_intent; time_intent; joke_intent; caption_intent;
      hashtag_intent; content_idea_intent; engagement_intent; trend_intent;
      analytics_intent; learn_intent; upgrade_intent; help_intent ] /\
  (forall pre kws h post,
      respond_rules = pre ++ (kws, h) :: post ->
      none_matches pre (strip (lower u)) = true ->
      any_in kws (strip (lower u)) = true ->
      chat self w u = h self w (strip (lower u))) /\
  (none_matches respond_rules (strip (lower u)) = true ->
   chat self w u = fallback_intent self w (strip (lower u))).
Proof.
  split; [apply chat_dispatch |].
  split; [reflexivity |].
  split.
  - intros pre kws h post Hrules Hpre Hkws.
    rewrite chat_dispatch. unfold respond. rewrite Hrules.
    by rewrite first_match_at.
  - intros Hnone. rewrite chat_dispatch. unfold respond.
    by rewrite first_match_none.
Qed.

(** C2, counting the hashtag tokens of the topic. Whatever the topic,
    the style and the template drawn, [generate_caption] returns a caption
    that contains the topic as given and whose tokens starting with [#]
    are five more than those of the topic itself; so at most five when no
    token of the topic starts with [#]. *)
Theorem C2_caption_topic_and_hashtags (w : World) (topic style : str) :
  exists out,
    generate_caption w topic style = Ok out /\
    contains topic out = true /\
    hashtag_tokens out = (5 + hashtag_tokens topic)%nat /\
    (hashtag_tokens topic = 0%nat -> (hashtag_tokens out <= 5)%nat).
Proof.
  destruct (generate_caption_spaced w topic style)
    as (before & c & front & hs & Hc & Hb & Hf & Hhs & Hout).
  eexists. split; [exact Hout |].
  split.
  { rewrite cons_middle, app_assoc. apply contains_middle. }
  assert (hashtag_tokens (join (U " ") (take 5 hs)) = 5%nat) as Htags.
  { destruct (hashtag_lists_tokens hs Hhs) as [Htok Hfive].
    unfold hashtag_tokens. rewrite Htok. exact Hfive. }
  rewrite (caption_hashtag_tokens before topic front _ c Hc Hb Hf), Htags.
  split; [lia |]. intros Hno. lia.
Qed.

(** C3. [get_hashtags_for_topic] returns the whole hashtag list of the
    first category, in the order fitness, food, travel, tech, art,
    business, entertainment, lifestyle, one of whose keywords occurs in
    the lower-cased input, and the list of [general] when none does; so
    ['workout today'] gets the fitness list and ['banana'] the general
    list. *)
Theorem C3_hashtags_first_category :
  (forall t,
      get_hashtags_for_topic t =
        hashtags_of (first_match category_rules (U "general") (lower t)) /\
      exists l,
        get_hashtags_for_topic t = Ok l /\
        In (first_match category_rules (U "general") (lower t), l)
           looply_hashtags) /\
  map snd category_rules =
    [ U "fitness"; U "food"; U "travel"; U "tech"; U "art"; U "business";
      U "entertainment"; U "lifestyle" ] /\
  get_hashtags_for_topic (U "workout today") =
    Ok [ U "#FitnessJourney"; U "#HealthyLifestyle"; U "#WorkoutMotivation";
         U "#FitFam"; U "#Wellness"; U "#LooplyFit" ] /\
  get_hashtags_for_topic (U "banana") =
    Ok [ U "#LooplyLife"; U "#Authentic"; U "#Community"; U "#Share";
         U "#Connect"; U "#Vibes"; U "#RealTalk" ].
Proof.
  split.
  - intros t. split; [apply get_hashtags_dispatch |].
    rewrite get_hashtags_dispatch.
    destruct (hashtags_of_rules (lower t)) as [l Hl].
    exists l. split; [done |]. by apply dict_get_pair.
  - split; [reflexivity |]. split; vm_compute; reflexivity.
Qed.

(** C4. [chat] returns a reply for every utterance and never raises;
    on the empty utterance no rule matches and the reply is one of the
    three fallback strings; [learn] and [recall] return for all keys and
    values. *)
Theorem C4_chat_total :
  (forall self w u, exists r self', chat self w u = Ok (r, self')) /\
  none_matches respond_rules (strip (lower [])) = true /\
  (forall self w,
      exists r, chat self w [] = Ok (r, self) /\ In r defaults) /\
  length defaults = 3%nat /\
  (forall self k v, exists r self', learn self k v = (r, self')) /\
  (forall self k, exists r, recall self k = r).
Proof.
  split.
  { intros self w u.
    destruct (chat_cases w u) as [[_ Hup] | [_ [r Hr]]].
    - rewrite Hup. by eexists _, _.
    - exists r, self. apply Hr. }
  split; [vm_compute; reflexivity |].
  split.
  { intros self w.
    destruct (choice_ok w defaults) as [x [Hx Hin]]; [done |].
    exists x. split; [| done].
    rewrite chat_dispatch. unfold respond.
    rewrite first_match_none by (vm_compute; reflexivity).
    unfold fallback_intent. by rewrite Hx. }
  split; [reflexivity |].
  split; intros; repeat eexists.
Qed.

(** C5. After [learn(k, v)], [recall(k)] returns [v], whatever was
    stored under [k] before; [learn] answers with a confirmation that
    contains [k]; [recall] of a key that is not stored returns the fixed
    default, which says [I don't remember that yet]. *)
Theorem C5_learn_then_recall (self : LooplyLIA) (k v : str) :
  recall (snd (learn self k v)) k = v /\
  contains v (recall (snd (learn self k v)) k) = true /\
  memory (snd (learn self k v)) = <[k:=v]> (memory self) /\
  contains k (fst (learn self k v)) = true /\
  (memory self !! k = None -> recall self k = recall_default) /\
  contains (U "I don't remember that yet") recall_default = true.
Proof.
  assert (recall (snd (learn self k v)) k = v) as Hrecall.
  { unfold recall, learn, set_memory. cbn [snd memory].
    by rewrite lookup_insert_eq. }
  split; [done |].
  split.
  { rewrite Hrecall. apply contains_refl. }
  split; [reflexivity |].
  split.
  { unfold learn. cbn [fst]. apply contains_middle. }
  split.
  { intros Hnone. unfold recall. by rewrite Hnone. }
  vm_compute. reflexivity.
Qed.

(** C6. [chat] returns the responder with the memory it came with, for
    every utterance; an utterance that gets as far as the learn/remember
    rule is answered with the fixed hint and the responder is returned
    unchanged. Of the other operations, [upgrade_intelligence] leaves the
    memory alone too; only [learn] writes it. *)
Theorem C6_chat_keeps_memory (self : LooplyLIA) (w : World) (u : str) :
  (exists r self',
      chat self w u = Ok (r, self') /\ memory self' = memory self) /\
  memory (snd (upgrade_intelligence self)) = memory self /\
  (none_matches (take 9 respond_rules) (strip (lower u)) = true ->
   any_in [U "learn"; U "remember"] (strip (lower u)) = true ->
   chat self w u = Ok (learn_hint, self)).
Proof.
  split.
  { destruct (chat_cases w u) as [[_ Hup] | [_ [r Hr]]].
    - rewrite Hup. by eexists _, _.
    - exists r, self. by rewrite Hr. }
  split; [reflexivity |].
  intros Hnone Hlearn.
  rewrite chat_dispatch. unfold respond.
  change respond_rules
    with (take 9 respond_rules ++
          ([U "learn"; U "remember"], learn_intent) :: drop 10 respond_rules).
  by rewrite first_match_at.
Qed.

(** C7. An utterance whose lower-cased form contains [hello], [hi] or
    [hey] is answered with one of the three greetings. *)
Theorem C7_greeting (self : LooplyLIA) (w : World) (u : str) :
  any_in [U "hello"; U "hi"; U "hey"] (lower u) = true ->
  exists g, chat self w u = Ok (g, self) /\ In g greetings /\
            length greetings = 3%nat.
Proof.
  intros Hin.
  apply any_in_strip in Hin; [| vm_compute; reflexivity].
  destruct (choice_ok w greetings) as [g [Hg Hgin]]; [done |].
  exists g. split; [| done].
  rewrite chat_dispatch. unfold respond.
  change respond_rules
    with ([] ++ ([U "hello"; U "hi"; U "hey"], greeting_intent)
             :: drop 1 respond_rules).
  rewrite first_match_at by done.
  unfold greeting_intent. by rewrite Hg.
Qed.

Lemma chat_upgrade (self : LooplyLIA) (w : World) (u : str) :
  reaches_upgrade u = true ->
  chat self w u =
  Ok (upgrade_reply (intelligence_level self + 1),
      set_intelligence_level self (intelligence_level self + 1)).
Proof.
  intros Hup. destruct (chat_cases w u) as [[_ H] | [H _]].
  - by rewrite H.
  - congruence.
Qed.

Lemma chats_upgrade (calls : list (World * str)) :
  Forall (fun c => reaches_upgrade (snd c) = true) calls ->
  forall self,
    exists self',
      chats self calls =
        Ok (map (fun i => upgrade_reply
                            (intelligence_level self + Z.of_nat (S i)))
                (seq 0 (length calls)), self') /\
      intelligence_level self' =
        (intelligence_level self + Z.of_nat (length calls))%Z.
Proof.
  induction 1 as [|[w u] rest Hu _ IH]; intros self.
  - exists self. split; [done | simpl; lia].
  - cbn [snd] in Hu. cbn [chats]. rewrite (chat_upgrade self w u Hu).
    cbn [bind fst snd].
    destruct (IH (set_intelligence_level self (intelligence_level self + 1)))
      as [self' [Hrun Hlevel]].
    rewrite Hrun. cbn [bind fst snd intelligence_level set_intelligence_level]
      in *.
    exists self'. split.
    + cbn [length seq map]. rewrite <- seq_shift, map_map.
      do 3 f_equal.
      apply map_ext. intros i. f_equal. lia.
    + cbn [length]. lia.
Qed.

(** C8. A call of [chat] whose utterance reaches the upgrade rule
    raises the intelligence level by exactly one and answers with the
    sentence that embeds the new level; from a fresh responder, whose
    level is 5, a run of [N] such calls succeeds, answers with the levels
    6, 7, ... in turn and leaves the level at [5 + N]. *)
Theorem C8_upgrade_counts (name : str) (calls : list (World * str)) :
  Forall (fun c => reaches_upgrade (snd c) = true) calls ->
  Forall (fun c => forall self,
              chat self (fst c) (snd c) =
              Ok (upgrade_reply (intelligence_level self + 1),
                  set_intelligence_level self (intelligence_level self + 1)))
         calls /\
  (forall level, contains (str_of_Z level) (upgrade_reply level) = true) /\
  exists self',
    chats (__init__ name) calls =
      Ok (map (fun i => upgrade_reply (5 + Z.of_nat (S i)))
              (seq 0 (length calls)), self') /\
    intelligence_level self' = (5 + Z.of_nat (length calls))%Z.
Proof.
  intros Hall. split.
  { eapply Forall_impl; [exact Hall |].
    intros [w u] Hu self. by apply chat_upgrade. }
  split.
  { intros level. unfold upgrade_reply. apply contains_middle. }
  apply (chats_upgrade calls Hall (__init__ name)).
Qed.

(** C9. For an utterance that does not reach the upgrade rule, [chat]
    answers, and its reply is the same for a responder and for that
    responder with any other intelligence level, the world (clock and
    random draws) being the same. *)
Theorem C9_level_independence (self : LooplyLIA) (level : Z) (w : World)
        (u : str) :
  reaches_upgrade u = false ->
  exists r,
    reply (chat self w u) = Ok r /\
    reply (chat (set_intelligence_level self level) w u) = Ok r.
Proof.
  intros Hup. destruct (chat_cases w u) as [[H _] | [_ [r Hr]]].
  - congruence.
  - exists r. by rewrite !Hr.
Qed.

(** C10, past the four earlier categories. The art rule comes before
    the business rule and
    keywords are matched as substrings: an input whose lower-cased
    form contains [art], inside a longer word or not, and none of the
    keywords of the four earlier categories (fitness, food, travel, tech)
    gets the art hashtag list; so ['startup'], although a keyword of
    business, gets the art list. *)
Theorem C10_art_before_business :
  (forall t,
      none_matches (take 4 category_rules) (lower t) = true ->
      contains (U "art") (lower t) = true ->
      get_hashtags_for_topic t =
        Ok [ U "#Art"; U "#Creative"; U "#Artist"; U "#Inspiration";
             U "#Design"; U "#LooplyArt" ]) /\
  get_hashtags_for_topic (U "startup") =
    Ok [ U "#Art"; U "#Creative"; U "#Artist"; U "#Inspiration";
         U "#Design"; U "#LooplyArt" ] /\
  In ([U "business"; U "entrepreneur"; U "startup"], U "business")
     category_rules.
Proof.
  split.
  - intros t Hnone Hart. rewrite get_hashtags_dispatch.
    change category_rules
      with (take 4 category_rules ++
            ([U "art"; U "design"; U "creative"], U "art")
              :: drop 5 category_rules).
    rewrite first_match_at; [vm_compute; reflexivity | done |].
    unfold any_in. cbn [existsb]. by rewrite Hart.
  - split; [vm_compute; reflexivity |].
    unfold category_rules. cbn [In]. tauto.
Qed.

(** ** Further properties of the code *)

(** *** Sampling without replacement *)

(** One round of the pool algorithm: the item drawn and the pool that is
    left are together the pool there was. *)
Lemma sample_round {A} (pool : list A) (m j : nat) (x y : A) :
  (j < S m)%nat -> pool !! j = Some x -> pool !! m = Some y ->
  take (S m) pool ≡ₚ x :: take m (<[j:=y]> pool).
Proof.
  intros Hj Hx Hy. rewrite (take_S_r pool m y Hy).
  destruct (decide (j = m)) as [-> | Hne].
  - rewrite list_insert_id by done.
    assert (x = y) as -> by congruence.
    by rewrite Permutation_app_comm.
  - rewrite take_insert_lt by lia.
    assert (take m pool !! j = Some x) as Hx'
      by (rewrite lookup_take_lt by lia; done).
    rewrite insert_take_drop
      by (apply lookup_lt_Some in Hx'; done).
    transitivity
      ((take j (take m pool) ++ x :: drop (S j) (take m pool)) ++ [y]).
    { by rewrite take_drop_middle. }
    rewrite <- !Permutation_middle. cbn [app].
    rewrite app_nil_r. apply Permutation_swap.
Qed.

(** The items [sample_loop] returns, with some of the pool left over,
    are exactly the first [n - i] items of the pool it started from. *)
Lemma sample_loop_sub {A} (w : World) (todo : nat) :
  forall (pool l : list A) (n i : nat),
    length pool = n -> (i + todo <= n)%nat ->
    sample_loop w pool n i todo = Ok l ->
    exists rest, take (n - i) pool ≡ₚ l ++ rest.
Proof.
  induction todo as [|t IH]; intros pool l n i Hlen Hle Hrun.
  - injection Hrun as <-. by exists (take (n - i) pool).
  - cbn [sample_loop] in Hrun. unfold randbelow in Hrun.
    assert (draw w i mod (n - i) < n - i)%nat as Hj
      by (apply Nat.mod_upper_bound; lia).
    destruct (pool !! (draw w i mod (n - i))%nat) as [x|] eqn:Hx; [| done].
    destruct (pool !! (n - i - 1)%nat) as [y|] eqn:Hy; [| done].
    destruct (sample_loop w _ n (S i) t) as [l'|] eqn:Hrest; [| done].
    injection Hrun as <-.
    apply IH in Hrest as [rest Hperm];
      [| by rewrite length_insert | lia].
    exists rest. cbn [app]. rewrite <- Hperm.
    assert (n - i - 1 = n - S i)%nat as Hm by lia. rewrite Hm in Hy.
    assert (take (n - i) pool = take (S (n - S i)) pool) as ->
      by (f_equal; lia).
    apply sample_round; [lia | done | done].
Qed.

(** [random.sample] returns [k] items of the population, and distinct
    ones when the population has no duplicates. *)
Lemma sample_distinct {A} (w : World) (population l : list A) (k : nat) :
  sample w population k = Ok l ->
  length l = k /\ (forall x, In x l -> In x population) /\
  (NoDup population -> NoDup l).
Proof.
  unfold sample. intros Hrun.
  destruct (Nat.leb_spec k (length population)) as [Hk|]; [| done].
  destruct (sample_loop_ok w k population (length population) 0)
    as [l' [Hl' Hlen]]; [done | lia |].
  assert (l' = l) as -> by congruence.
  apply sample_loop_sub in Hrun as [rest Hperm]; [| done | lia].
  rewrite Nat.sub_0_r, firstn_all in Hperm.
  split; [done |]. split.
  - intros x Hx. apply list_elem_of_In. rewrite Hperm.
    apply elem_of_app. left. by apply list_elem_of_In.
  - intros Hnd. rewrite Hperm in Hnd. by apply NoDup_app in Hnd as [? _].
Qed.

(** *** Content ideas, trends and engagement tips *)

Lemma content_ideas_NoDup : NoDup content_ideas.
Proof. apply (bool_decide_unpack _). vm_compute. exact I. Qed.

Lemma trends_NoDup : NoDup trends.
Proof. apply (bool_decide_unpack _). vm_compute. exact I. Qed.

(** X1. [get_content_ideas] never raises: it returns five lines numbered
    1 to 5, each with an idea of [content_ideas], no idea twice, followed
    by the closing sentence that names the niche. *)
Theorem X1_content_ideas_five_distinct (w : World) (niche : str) :
  exists a b c d e,
    get_content_ideas w niche =
      Ok (join [nl] [ U "1. " ++ a; U "2. " ++ b; U "3. " ++ c;
                      U "4. " ++ d; U "5. " ++ e ]
          ++ [nl; nl] ++ U "🎯 For " ++ niche ++
          U " creators: Consider sharing industry insights, behind-the-scenes content, or community challenges!") /\
    NoDup [a; b; c; d; e] /\
    Forall (fun x => In x content_ideas) [a; b; c; d; e].
Proof.
  unfold get_content_ideas.
  destruct (sample_ok w content_ideas 5) as [l [Hl _]]; [vm_compute; lia |].
  destruct (sample_distinct w content_ideas l 5 Hl) as (Hlen & Hin & Hnd).
  rewrite Hl. cbn [bind].
  destruct l as [|a [|b [|c [|d [|e [|? ?]]]]]]; try discriminate Hlen.
  exists a, b, c, d, e. split; [reflexivity |].
  split; [apply Hnd, content_ideas_NoDup |].
  apply Forall_forall. intros x Hx. by apply Hin, list_elem_of_In.
Qed.

(** X2. [analyze_trends] never raises: under its heading it lists three
    different entries of the six trends, one per line. *)
Theorem X2_trends_three_distinct (w : World) :
  exists a b c,
    analyze_trends w =
      Ok (U "🎭 **Current Looply Trends:**" ++ [nl; nl] ++
          join [nl] [a; b; c]) /\
    NoDup [a; b; c] /\
    Forall (fun x => In x trends) [a; b; c] /\
    length trends = 6%nat.
Proof.
  unfold analyze_trends.
  destruct (sample_ok w trends 3) as [l [Hl _]]; [vm_compute; lia |].
  destruct (sample_distinct w trends l 3 Hl) as (Hlen & Hin & Hnd).
  rewrite Hl. cbn [bind].
  destruct l as [|a [|b [|c [|? ?]]]]; try discriminate Hlen.
  exists a, b, c. split; [reflexivity |].
  split; [apply Hnd, trends_NoDup |]. split; [| reflexivity].
  apply Forall_forall. intros x Hx. by apply Hin, list_elem_of_In.
Qed.

(** X3. [get_engagement_tips] with the name of a strategy returns the
    advice of that strategy alone; with any other focus it returns the
    whole overview, the same text whatever the focus, in which every
    strategy appears under its title-cased name with its advice. *)
Theorem X3_engagement_tips_focus (focus : str) :
  (forall tip,
      In (focus, tip) engagement_strategies ->
      get_engagement_tips focus = Ok (U "💡 " ++ tip)) /\
  (dict_mem engagement_strategies focus = false ->
   get_engagement_tips focus = Ok engagement_mastery) /\
  Forall (fun kv =>
            contains (U "**" ++ title (replace (U "_") (U " ") (fst kv)) ++
                      U ":** " ++ snd kv) engagement_mastery = true)
         engagement_strategies.
Proof.
  split.
  { intros tip Hin.
    assert (Forall (fun kv => get_engagement_tips (fst kv) =
                              Ok (U "💡 " ++ snd kv)) engagement_strategies)
      as Hall.
    { unfold engagement_strategies.
      repeat match goal with
             | |- Forall _ _ => constructor
             end; vm_compute; reflexivity. }
    rewrite Forall_forall in Hall.
    apply (Hall (focus, tip)). by apply list_elem_of_In. }
  split.
  { intros Hno. unfold get_engagement_tips, engagement_mastery.
    rewrite Hno. cbv zeta. reflexivity. }
  apply Forall_forall. intros kv Hin.
  assert (forallb
            (fun kv =>
               contains (U "**" ++ title (replace (U "_") (U " ") (fst kv)) ++
                         U ":** " ++ snd kv) engagement_mastery)
            engagement_strategies = true) as Hall
    by (vm_compute; reflexivity).
  rewrite forallb_forall in Hall. apply Hall. by apply list_elem_of_In.
Qed.

(** *** Memory and level *)

(** X4. [learn] touches one key only: [recall] of any other key answers
    as before; a second [learn] of the same key leaves the responder as
    if the first had not happened; [learn]s of different keys can be
    made in either order; the intelligence level and the name stay. *)
Theorem X4_learn_frame (self : LooplyLIA) (k k' v v' : str) :
  (k' <> k -> recall (snd (learn self k v)) k' = recall self k') /\
  snd (learn (snd (learn self k v)) k v') = snd (learn self k v') /\
  (k <> k' ->
   snd (learn (snd (learn self k v)) k' v') =
   snd (learn (snd (learn self k' v')) k v)) /\
  intelligence_level (snd (learn self k v)) = intelligence_level self /\
  name (snd (learn self k v)) = name self.
Proof.
  unfold learn, recall, set_memory. cbn [snd memory name intelligence_level
                                           session_data].
  split.
  { intros Hne. by rewrite lookup_insert_ne. }
  split.
  { by rewrite insert_insert_eq. }
  split.
  { intros Hne. by rewrite insert_insert_ne. }
  done.
Qed.

(** X5. [chat] never reads the memory: the reply to an utterance is the
    same whatever has been learnt, in particular right after a [learn]. *)
Theorem X5_chat_ignores_memory (self : LooplyLIA) (w : World) (u : str) :
  (forall m, reply (chat (set_memory self m) w u) = reply (chat self w u)) /\
  (forall k v, reply (chat (snd (learn self k v)) w u) = reply (chat self w u)).
Proof.
  assert (forall m,
             reply (chat (set_memory self m) w u) = reply (chat self w u))
    as Hmem.
  { intros m. destruct (chat_cases w u) as [[_ Hup] | [_ [r Hr]]].
    - rewrite !Hup. unfold upgrade_intent, reply, set_memory.
      cbn [bind fst intelligence_level set_intelligence_level].
      reflexivity.
    - rewrite !Hr. reflexivity. }
  split; [exact Hmem |]. intros k v. apply Hmem.
Qed.

Lemma chat_state (self : LooplyLIA) (w : World) (u : str) :
  exists r,
    chat self w u =
    Ok (r, if reaches_upgrade u
           then set_intelligence_level self (intelligence_level self + 1)
           else self).
Proof.
  destruct (chat_cases w u) as [[Hu Hup] | [Hu [r Hr]]]; rewrite Hu.
  - rewrite Hup. by eexists.
  - exists r. apply Hr.
Qed.

(** X6. A run of calls to [chat] never raises and answers every call;
    it leaves the memory, the name and the session data as they were, and
    the level it ends with is the level it started with plus the number
    of utterances of the run that reach the upgrade rule. *)
Theorem X6_chats_level_count (calls : list (World * str)) :
  forall self,
    exists replies self',
      chats self calls = Ok (replies, self') /\
      length replies = length calls /\
      memory self' = memory self /\
      name self' = name self /\
      session_data self' = session_data self /\
      intelligence_level self' =
        (intelligence_level self +
         Z.of_nat (length (List.filter (fun c => reaches_upgrade (snd c))
                                       calls)))%Z.
Proof.
  induction calls as [|[w u] rest IH]; intros self.
  - exists [], self. repeat split; try done. simpl. lia.
  - cbn [chats]. destruct (chat_state self w u) as [r Hr]. rewrite Hr.
    cbn [bind fst snd].
    match goal with
    | |- context [chats ?s rest] =>
        destruct (IH s)
          as (replies & self' & Hrun & Hlen & Hmem & Hname & Hsess & Hlev)
    end.
    rewrite Hrun. cbn [bind fst snd].
    exists (r :: replies), self'. split; [done |].
    split; [simpl; lia |].
    cbn [List.filter snd].
    destruct (reaches_upgrade u);
      cbn [memory name session_data intelligence_level
             set_intelligence_level length] in *;
      repeat split; try done; lia.
Qed.

(** X7. The method [upgrade_intelligence] and an utterance that reaches
    the upgrade rule of [chat] leave the responder in the same state,
    one level up; both sentences name the new level, yet they are
    different sentences. *)
Theorem X7_upgrade_two_ways (self : LooplyLIA) (w : World) (u : str) :
  reaches_upgrade u = true ->
  exists r,
    chat self w u = Ok (r, snd (upgrade_intelligence self)) /\
    intelligence_level (snd (upgrade_intelligence self)) =
      (intelligence_level self + 1)%Z /\
    contains (str_of_Z (intelligence_level self + 1)) r = true /\
    contains (str_of_Z (intelligence_level self + 1))
             (fst (upgrade_intelligence self)) = true /\
    r <> fst (upgrade_intelligence self).
Proof.
  intros Hu. rewrite (chat_upgrade self w u Hu).
  eexists. split; [reflexivity |].
  split; [reflexivity |].
  split; [apply contains_middle |].
  split; [apply contains_middle |].
  intros Heq. apply (f_equal head) in Heq. vm_compute in Heq. discriminate.
Qed.

(** *** The time branch *)

Lemma pad2_digits (n : nat) :
  (n < 100)%nat ->
  pad2 n = [N.of_nat (48 + n / 10); N.of_nat (48 + n mod 10)].
Proof.
  intros Hn.
  assert (forallb
            (fun n => str_eqb (pad2 n)
                        [N.of_nat (48 + n / 10); N.of_nat (48 + n mod 10)])
            (seq 0 100) = true) as Hall by (vm_compute; reflexivity).
  rewrite forallb_forall in Hall.
  apply str_eqb_eq, Hall, in_seq. lia.
Qed.

(** X8. An utterance that contains [time] and no greeting keyword is
    answered with the clock sentence, whatever else it asks for; with
    the clock in its ranges the time is written as two digits for the
    hour, the minute and the second, with colons between. *)
Theorem X8_time_reply (self : LooplyLIA) (w : World) (u : str) :
  (hour w < 24)%nat -> (minute w < 60)%nat -> (second w < 62)%nat ->
  any_in [U "hello"; U "hi"; U "hey"] (strip (lower u)) = false ->
  contains (U "time") (strip (lower u)) = true ->
  chat self w u =
    Ok (U "⏰ Current time is " ++
        [ N.of_nat (48 + hour w / 10); N.of_nat (48 + hour w mod 10); 58;
          N.of_nat (48 + minute w / 10); N.of_nat (48 + minute w mod 10); 58;
          N.of_nat (48 + second w / 10); N.of_nat (48 + second w mod 10) ] ++
        U " - Perfect time to create some content!", self).
Proof.
  intros Hh Hm Hs Hgreet Htime.
  rewrite chat_dispatch. unfold respond.
  change respond_rules
    with ([([U "hello"; U "hi"; U "hey"], greeting_intent)] ++
          ([U "time"], time_intent) :: drop 2 respond_rules).
  rewrite first_match_at.
  - unfold time_intent, strftime_HMS.
    rewrite !pad2_digits by lia. reflexivity.
  - unfold none_matches. cbn [forallb fst]. rewrite Hgreet. reflexivity.
  - rewrite any_in_single. exact Htime.
Qed.

(** *** The topic of a caption request *)

Lemma split_go_skip (sep x r cur : str) :
  split_go sep (x ++ r) (length x) cur = split_go sep r 0 cur.
Proof. induction x as [|c x IH]; [reflexivity | exact IH]. Qed.

Lemma split_go_free (sep q : str) :
  contains sep q = false ->
  forall cur, split_go sep q 0 cur = [rev cur ++ q].
Proof.
  induction q as [|c r IH]; intros Hfree cur.
  - cbn [split_go]. by rewrite app_nil_r.
  - cbn [contains] in Hfree. apply orb_false_iff in Hfree as [Hhere Hlater].
    cbn [split_go]. rewrite Hhere, (IH Hlater). cbn [rev].
    by rewrite <- app_assoc.
Qed.

(** For a separator whose first character occurs in it only once, the
    last piece of [split] is the text after the last occurrence. *)
Lemma split_go_last (a : N) (rest q : str) :
  ~ In a rest -> contains (a :: rest) q = false ->
  forall p skip cur,
    Forall (fun c => c <> a) (take skip (p ++ (a :: rest) ++ q)) ->
    last (split_go (a :: rest) (p ++ (a :: rest) ++ q) skip cur) = Some q.
Proof.
  intros Hfirst Hfree.
  assert (Forall (fun c => c <> a) rest) as Hrest.
  { apply Forall_forall. intros c Hc ->. by apply Hfirst, list_elem_of_In. }
  induction p as [|c p IH]; intros skip cur Hskip.
  - destruct skip as [|k].
    + cbn [app split_go]. cbn [starts_with].
      assert (starts_with (a :: rest) (a :: rest ++ q) = true) as Hs.
      { apply starts_with_spec. by exists q. }
      cbn [starts_with] in Hs. rewrite Hs.
      replace (length (a :: rest) - 1)%nat with (length rest)
        by (cbn [length]; lia).
      rewrite split_go_skip.
      by rewrite (split_go_free _ q Hfree).
    + cbn [app take] in Hskip. by apply Forall_cons in Hskip as [? _].
  - rewrite <- app_comm_cons. destruct skip as [|k].
    + cbn [split_go].
      destruct (starts_with (a :: rest) (c :: p ++ (a :: rest) ++ q))
        eqn:Hs.
      * rewrite last_cons. rewrite IH; [done |].
        apply starts_with_spec in Hs as [t Ht].
        cbn [app] in Ht. injection Ht as -> Ht.
        change (p ++ (a :: rest) ++ q = rest ++ t) in Ht. rewrite Ht.
        replace (length (a :: rest) - 1)%nat with (length rest)
          by (cbn [length]; lia).
        by rewrite take_app_length.
      * apply IH. cbn [take]. constructor.
    + cbn [split_go]. apply IH.
      rewrite <- app_comm_cons in Hskip. cbn [take] in Hskip.
      by apply Forall_cons in Hskip as [_ ?].
Qed.

Lemma last_item_after (a : N) (rest p q : str) :
  ~ In a rest -> contains (a :: rest) q = false ->
  last_item (split (a :: rest) (p ++ (a :: rest) ++ q)) = Ok q.
Proof.
  intros Hfirst Hfree. unfold last_item, split.
  rewrite (split_go_last a rest q Hfirst Hfree p 0 []); [done |].
  cbn [take]. constructor.
Qed.

(** X9. A caption request is about the text after the last [about] of
    the normalized utterance, stripped; when there is no [about], about
    the text after the last [for]; and the caption returned contains
    that text. *)
Theorem X9_caption_topic (self : LooplyLIA) (w : World) (u p q : str) :
  none_matches (take 3 respond_rules) (strip (lower u)) = true ->
  any_in [U "caption"; U "post idea"; U "create post"] (strip (lower u))
    = true ->
  (strip (lower u) = p ++ U "about" ++ q ->
   contains (U "about") q = false ->
   exists r,
     chat self w u = Ok (r, self) /\
     generate_caption w (strip q) (U "casual") = Ok r /\
     contains (strip q) r = true) /\
  (strip (lower u) = p ++ U "for" ++ q ->
   contains (U "about") (strip (lower u)) = false ->
   contains (U "for") q = false ->
   exists r,
     chat self w u = Ok (r, self) /\
     generate_caption w (strip q) (U "casual") = Ok r /\
     contains (strip q) r = true).
Proof.
  intros Hnone Hcap.
  assert (chat self w u = caption_intent self w (strip (lower u))) as Hchat.
  { rewrite chat_dispatch. unfold respond.
    change respond_rules
      with (take 3 respond_rules ++
            ([U "caption"; U "post idea"; U "create post"], caption_intent)
              :: drop 4 respond_rules).
    by rewrite first_match_at. }
  assert (forall topic,
             exists r, generate_caption w topic (U "casual") = Ok r /\
                       contains topic r = true) as Hgen.
  { intros topic.
    destruct (generate_caption_shape w topic (U "casual"))
      as (pre & mid & post & hs & Hr & _).
    eexists. split; [exact Hr | apply contains_middle]. }
  split.
  - intros Hs Hfree. destruct (Hgen (strip q)) as [r [Hr Hin]].
    exists r. split; [| by split].
    rewrite Hchat. unfold caption_intent. rewrite Hs at 1.
    rewrite contains_middle. rewrite Hs.
    change (U "about") with (97 :: [98; 111; 117; 116]) in *.
    rewrite last_item_after; [| vm_compute; intuition discriminate | done].
    cbn [bind]. rewrite Hr. reflexivity.
  - intros Hs Hnoabout Hfree. destruct (Hgen (strip q)) as [r [Hr Hin]].
    exists r. split; [| by split].
    rewrite Hchat. unfold caption_intent. rewrite Hnoabout.
    rewrite Hs at 1. rewrite contains_middle. rewrite Hs.
    change (U "for") with (102 :: [111; 114]) in *.
    rewrite last_item_after; [| vm_compute; intuition discriminate | done].
    cbn [bind]. rewrite Hr. reflexivity.
Qed.

(** *** Keywords that hide behind earlier ones *)

Lemma contains_trans (a b c : str) :
  contains a b = true -> contains b c = true -> contains a c = true.
Proof.
  intros Hab Hbc.
  apply contains_spec in Hab as [p1 [q1 ->]].
  apply contains_spec in Hbc as [p2 [q2 ->]].
  apply contains_spec. exists (p2 ++ p1), (q1 ++ q2).
  by rewrite <- !app_assoc.
Qed.

(** X10. The art keyword [creative] never selects the art hashtags:
    [creative] contains [eat], a keyword of the food category, which is
    tested earlier. An input whose lower-cased form contains [creative]
    gets the fitness list when one of the fitness keywords occurs in it
    and the food list when none does. *)
Theorem X10_creative_is_food (t : str) :
  contains (U "creative") (lower t) = true ->
  get_hashtags_for_topic t =
    Ok (if any_in [U "fitness"; U "workout"; U "gym"; U "health"] (lower t)
        then [ U "#FitnessJourney"; U "#HealthyLifestyle";
               U "#WorkoutMotivation"; U "#FitFam"; U "#Wellness";
               U "#LooplyFit" ]
        else [ U "#Foodie"; U "#Delicious"; U "#Cooking"; U "#Recipe";
               U "#FoodLover"; U "#LooplyEats" ]) /\
  get_hashtags_for_topic t <>
    Ok [ U "#Art"; U "#Creative"; U "#Artist"; U "#Inspiration";
         U "#Design"; U "#LooplyArt" ].
Proof.
  intros Hcreative.
  assert (contains (U "eat") (lower t) = true) as Heat.
  { apply (contains_trans _ (U "creative"));
      [vm_compute; reflexivity | exact Hcreative]. }
  assert (get_hashtags_for_topic t =
          Ok (if any_in [U "fitness"; U "workout"; U "gym"; U "health"]
                        (lower t)
              then [ U "#FitnessJourney"; U "#HealthyLifestyle";
                     U "#WorkoutMotivation"; U "#FitFam"; U "#Wellness";
                     U "#LooplyFit" ]
              else [ U "#Foodie"; U "#Delicious"; U "#Cooking"; U "#Recipe";
                     U "#FoodLover"; U "#LooplyEats" ])) as Hget.
  { rewrite get_hashtags_dispatch. unfold category_rules.
    cbn [first_match].
    destruct (any_in [U "fitness"; U "workout"; U "gym"; U "health"]
                     (lower t)).
    - vm_compute. reflexivity.
    - assert (any_in [U "food"; U "recipe"; U "cooking"; U "eat"] (lower t)
              = true) as ->.
      { unfold any_in. cbn [existsb]. rewrite Heat.
        rewrite !orb_true_r. reflexivity. }
      vm_compute. reflexivity. }
  split; [exact Hget |].
  rewrite Hget.
  destruct (any_in [U "fitness"; U "workout"; U "gym"; U "health"] (lower t));
    intros Heq; vm_compute in Heq; discriminate Heq.
Qed.

(** *** The end of a caption *)

(** X11. Every caption ends with a blank and the first five hashtags
    of the category of its topic, one blank between them; when the topic
    has no [#], these five are all the hashtag tokens of the caption. *)
Theorem X11_caption_ends_with_hashtags (w : World) (topic style : str) :
  exists body hs,
    get_hashtags_for_topic topic = Ok hs /\
    length (take 5 hs) = 5%nat /\
    generate_caption w topic style =
      Ok (body ++ U " " ++ join (U " ") (take 5 hs)) /\
    (count_hash topic = 0%nat ->
     List.filter is_hashtag
       (tokens (body ++ U " " ++ join (U " ") (take 5 hs))) = take 5 hs).
Proof.
  unfold generate_caption.
  destruct (choice_ok w caption_templates) as [tpl [Htpl Hin]];
    [discriminate |].
  destruct (get_hashtags_ok topic) as [hs [Hhs Hhin]].
  rewrite Htpl, Hhs. cbn [bind].
  destruct (caption_templates_tail style tpl Hin) as [pre [front Hs]].
  apply tail_slots_sound in Hs as (Heq & Hpre & Hmid & Hcount).
  destruct (hashtag_lists_tokens hs Hhin) as [Htok Hfive].
  exists (pre ++ topic ++ front), hs.
  split; [reflexivity |]. split; [exact Hfive |].
  split.
  - fold (restyle style tpl). rewrite Heq.
    rewrite <- (app_nil_r hashtags_slot).
    rewrite format_two_slots; [| done | done | reflexivity].
    by rewrite app_nil_r, <- !app_assoc.
  - intros Hno. unfold tokens.
    change (U " ") with [32].
    rewrite <- !app_assoc. cbn [app].
    rewrite !app_assoc.
    rewrite tokens_go_app_space by reflexivity.
    rewrite List.filter_app.
    fold (tokens ((pre ++ topic) ++ front)).
    rewrite no_hash_no_hashtag.
    + cbn [app]. exact Htok.
    + rewrite !count_hash_app in *. lia.
Qed.

Lemma format_prefix (prefix tpl : str) (kw : list (str * str)) :
  plain prefix = true ->
  format (prefix ++ tpl) kw = let* r := format tpl kw in Ok (prefix ++ r).
Proof. intros Hp. unfold format. by apply format_go_plain. Qed.

(** X12. With the same draw, the caption in the [creative] style is
    the caption in the [casual] style with the palette emoji and a blank
    before it. *)
Theorem X12_creative_caption (w : World) (topic : str) :
  exists r,
    generate_caption w topic (U "casual") = Ok r /\
    generate_caption w topic (U "creative") = Ok (U "🎨 " ++ r).
Proof.
  destruct (generate_caption_shape w topic (U "casual"))
    as (pre & mid & post & hs & Hr & _).
  eexists. split; [exact Hr |].
  revert Hr. unfold generate_caption.
  destruct (choice w caption_templates) as [tpl|]; [| discriminate].
  destruct (get_hashtags_for_topic topic) as [hs'|]; [| discriminate].
  cbn [bind].
  change (str_eqb (U "casual") (U "professional")) with false.
  change (str_eqb (U "casual") (U "creative")) with false.
  change (str_eqb (U "creative") (U "professional")) with false.
  change (str_eqb (U "creative") (U "creative")) with true.
  cbv iota. intros Hr.
  rewrite format_prefix by reflexivity. rewrite Hr. reflexivity.
Qed.

(** *** Letter case and surrounding blanks *)

Lemma concat_imap_pointwise (g : N -> N) (l : str) :
  forall f : nat -> N -> str,
    (forall i c, In c l -> f i c = [g c]) ->
    concat (imap f l) = map g l.
Proof.
  induction l as [|x l IH]; intros f Hf; [reflexivity |].
  cbn [imap concat map]. rewrite (Hf 0%nat x) by (by left).
  cbn [app]. f_equal. apply IH. intros i c Hc. apply Hf. by right.
Qed.

Lemma lower_ascii (u : str) :
  Forall (fun c => c < 128) u -> lower u = map ascii_lower u.
Proof.
  intros Hu. unfold lower. apply concat_imap_pointwise.
  intros i c Hc. rewrite Forall_forall in Hu.
  apply list_elem_of_In, Hu in Hc.
  by apply N.ltb_lt in Hc as ->.
Qed.

Lemma ascii_lower_upper (c : N) : ascii_lower (ascii_upper c) = ascii_lower c.
Proof.
  unfold ascii_lower, ascii_upper.
  destruct (N.leb_spec 97 c), (N.leb_spec c 122); cbn [andb];
    destruct (N.leb_spec 65 c), (N.leb_spec c 90); cbn [andb];
    repeat match goal with
           | |- context [(?a <=? ?b)] => destruct (N.leb_spec a b)
           end; cbn [andb]; lia.
Qed.

Lemma isspace_lower (c : N) : isspace c = true -> ascii_lower c = c.
Proof.
  unfold isspace, ascii_lower. intros Hs.
  destruct (N.leb_spec 65 c), (N.leb_spec c 90); cbn [andb]; try reflexivity.
  exfalso.
  rewrite !orb_true_iff, !andb_true_iff, !N.leb_le, !N.eqb_eq in Hs. lia.
Qed.

Lemma lstrip_blanks (p s : str) :
  Forall (fun c => isspace c = true) p -> lstrip (p ++ s) = lstrip s.
Proof.
  induction 1 as [|c p Hc _ IH]; [reflexivity |].
  cbn [app lstrip]. by rewrite Hc.
Qed.

Lemma rstrip_blanks (s q : str) :
  Forall (fun c => isspace c = true) q -> rstrip (s ++ q) = rstrip s.
Proof.
  intros Hq. unfold rstrip. rewrite rev_app_distr.
  rewrite lstrip_blanks; [done |].
  apply Forall_forall. intros c Hc. rewrite Forall_forall in Hq.
  apply Hq. apply list_elem_of_In. apply list_elem_of_In in Hc.
  by apply in_rev.
Qed.

Lemma strip_blanks (p s q : str) :
  Forall (fun c => isspace c = true) p ->
  Forall (fun c => isspace c = true) q ->
  strip (p ++ s ++ q) = strip s.
Proof.
  intros Hp Hq. unfold strip. rewrite lstrip_blanks by done.
  induction s as [|c s IH].
  - cbn [app]. rewrite <- (app_nil_r q) at 1.
    by rewrite lstrip_blanks.
  - cbn [app lstrip]. destruct (isspace c); [exact IH |].
    by rewrite app_comm_cons, rstrip_blanks.
Qed.

Lemma chat_normalized (self : LooplyLIA) (w : World) (u1 u2 : str) :
  strip (lower u1) = strip (lower u2) -> chat self w u1 = chat self w u2.
Proof. intros Heq. rewrite !chat_dispatch. unfold respond. by rewrite Heq. Qed.

(** X13. On ASCII text [chat] looks at neither the case of the letters
    nor the blanks around the utterance, and [get_hashtags_for_topic]
    does not look at the case of the letters. *)
Theorem X13_case_and_blanks (self : LooplyLIA) (w : World) (u p q : str) :
  Forall (fun c => c < 128) u ->
  Forall (fun c => c < 128) p -> Forall (fun c => isspace c = true) p ->
  Forall (fun c => c < 128) q -> Forall (fun c => isspace c = true) q ->
  chat self w (p ++ map ascii_upper u ++ q) = chat self w u /\
  chat self w (p ++ u ++ q) = chat self w u /\
  get_hashtags_for_topic (map ascii_upper u) = get_hashtags_for_topic u.
Proof.
  intros Hu Hp Hps Hq Hqs.
  assert (Forall (fun c => c < 128) (map ascii_upper u)) as Hup.
  { apply Forall_forall. intros c Hc.
    apply list_elem_of_In, in_map_iff in Hc as [x [<- Hx]].
    rewrite Forall_forall in Hu. apply list_elem_of_In, Hu in Hx.
    unfold ascii_upper. destruct (_ && _); lia. }
  assert (map ascii_lower (map ascii_upper u) = map ascii_lower u) as Hlu.
  { rewrite map_map. apply map_ext. intros c. apply ascii_lower_upper. }
  assert (forall r, Forall (fun c => isspace c = true) r ->
                    map ascii_lower r = r) as Hblank.
  { intros r Hr. induction Hr as [|c r Hc _ IH]; [reflexivity |].
    cbn [map]. by rewrite IH, isspace_lower. }
  assert (forall x, Forall (fun c => c < 128) x ->
                    strip (lower (p ++ x ++ q)) = strip (map ascii_lower x))
    as Hnorm.
  { intros x Hx. rewrite lower_ascii.
    - rewrite !map_app, (Hblank p Hps), (Hblank q Hqs).
      by apply strip_blanks.
    - by repeat apply Forall_app_2. }
  split; [| split].
  - apply chat_normalized. rewrite (Hnorm _ Hup), Hlu.
    by rewrite lower_ascii.
  - apply chat_normalized. rewrite (Hnorm _ Hu). by rewrite lower_ascii.
  - rewrite !get_hashtags_dispatch.
    by rewrite (lower_ascii _ Hup), Hlu, (lower_ascii _ Hu).
Qed.

(** *** The interactive loop *)

Lemma interactive_turn_line (lia : LooplyLIA) (w : World) (line : str) :
  (is_exit line = true ->
   interactive_turn lia w (Typed line) =
     Stop [Prompted (U "🎭 You: "); Printed ([nl] ++ goodbye)]) /\
  (is_exit line = false -> strip line = [] ->
   interactive_turn lia w (Typed line) = Go [Prompted (U "🎭 You: ")] lia) /\
  (is_exit line = false -> strip line <> [] ->
   exists r lia',
     chat lia w (strip line) = Ok (r, lia') /\
     interactive_turn lia w (Typed line) =
       Go [Prompted (U "🎭 You: "); Printed (U "🤖 LIA: " ++ r); Printed []]
          lia').
Proof.
  unfold is_exit, interactive_turn. cbv zeta.
  split; [| split].
  - intros ->. reflexivity.
  - intros -> ->. reflexivity.
  - intros -> Hne.
    destruct (chat_state lia w (strip line)) as [r Hr].
    destruct (strip line) as [|c l]; [done |].
    rewrite Hr. by eexists _, _.
Qed.

(** X14. A typed line that is, once stripped and lower-cased, one of
    [exit], [quit] and [bye] ends the loop with the farewell, and [chat]
    is not called; a blank line only brings the prompt back; any other
    line is stripped, handed to [chat] and answered with [chat]'s reply
    after the robot label, never with the error message. *)
Theorem X14_turn_on_a_line (lia : LooplyLIA) (w : World) (line : str) :
  (is_exit line = true ->
   interactive_turn lia w (Typed line) =
     Stop [Prompted (U "🎭 You: "); Printed ([nl] ++ goodbye)]) /\
  (is_exit line = false -> strip line = [] ->
   interactive_turn lia w (Typed line) = Go [Prompted (U "🎭 You: ")] lia) /\
  (is_exit line = false -> strip line <> [] ->
   exists r lia',
     chat lia w (strip line) = Ok (r, lia') /\
     interactive_turn lia w (Typed line) =
       Go [Prompted (U "🎭 You: "); Printed (U "🤖 LIA: " ++ r); Printed []]
          lia').
Proof.
  assert (is_exit line = false -> strip line <> [] ->
          exists r lia',
            chat lia w (strip line) = Ok (r, lia') /\
            interactive_turn lia w (Typed line) =
              Go [Prompted (U "🎭 You: "); Printed (U "🤖 LIA: " ++ r);
                  Printed []] lia') as Hsaid.
  { unfold is_exit, interactive_turn. cbv zeta. intros -> Hne.
    destruct (chat_state lia w (strip line)) as [r Hr].
    destruct (strip line) as [|c l]; [contradiction |].
    rewrite Hr. exists r. eexists. split; reflexivity. }
  split; [| split; [| exact Hsaid]].
  - unfold is_exit, interactive_turn. cbv zeta. intros ->. reflexivity.
  - unfold is_exit, interactive_turn. cbv zeta. intros -> ->. reflexivity.
Qed.

(** X15. The end of the input does not end the loop: the turn prints
    the error message for [EOF when reading a line] and the hint, keeps
    the responder and goes round again, as often as the input is asked
    for. *)
Theorem X15_end_of_input_goes_on (lia : LooplyLIA)
        (inputs : list (World * console_input)) :
  Forall (fun c => snd c = EndOfInput) inputs ->
  interactive_loop lia inputs =
    (flat_map (fun _ => [ Prompted (U "🎭 You: ");
                          Printed (oops ++ U "EOF when reading a line");
                          Printed try_asking ]) inputs,
     Some lia).
Proof.
  induction 1 as [|[w i] rest Hi _ IH]; [reflexivity |].
  cbn [snd] in Hi. subst i.
  cbn [interactive_loop interactive_turn flat_map].
  rewrite IH. reflexivity.
Qed.

(** X16. As long as no exit word is typed and no interrupt comes, the
    loop is a run of [chat] over the stripped, non-empty lines typed, in
    order: that run answers each of these lines, the loop goes on with
    the responder of that run, and what it writes is the transcript with
    the replies of that run, each once, in the order of the lines. *)
Theorem X16_loop_is_a_run_of_chat (inputs : list (World * console_input)) :
  forall lia,
    forallb goes_on inputs = true ->
    exists replies lia',
      chats lia (said inputs) = Ok (replies, lia') /\
      length replies = length (said inputs) /\
      interactive_loop lia inputs = (transcript inputs replies, Some lia').
Proof.
  induction inputs as [|[w i] rest IH]; intros lia Hgo.
  - exists [], lia. repeat split.
  - cbn [forallb] in Hgo. apply andb_true_iff in Hgo as [Hi Hrest].
    unfold goes_on in Hi. cbn [snd] in Hi.
    destruct i as [line | |]; [| | discriminate].
    + apply negb_true_iff in Hi.
      destruct (interactive_turn_line lia w line) as (_ & Hblank & Hline).
      cbn [interactive_loop said transcript].
      destruct (strip line) as [|c l] eqn:Hstrip.
      * rewrite (Hblank Hi eq_refl).
        destruct (IH lia Hrest) as (replies & lia' & Hrun & Hlen & Hloop).
        exists replies, lia'. split; [exact Hrun |].
        split; [exact Hlen |]. rewrite Hloop. reflexivity.
      * destruct (Hline Hi) as (r0 & lia0 & Hchat & Hturn); [discriminate |].
        rewrite Hturn.
        destruct (IH lia0 Hrest) as (replies & lia' & Hrun & Hlen & Hloop).
        exists (r0 :: replies), lia'. split.
        { cbn [chats]. rewrite Hchat. cbn [bind fst snd].
          rewrite Hrun. reflexivity. }
        split; [cbn [length]; lia |]. rewrite Hloop. reflexivity.
    + cbn [interactive_loop interactive_turn said transcript].
      destruct (IH lia Hrest) as (replies & lia' & Hrun & Hlen & Hloop).
      exists replies, lia'. split; [exact Hrun |].
      split; [exact Hlen |]. rewrite Hloop. reflexivity.
Qed.

(** *** The HTTP handler *)

Lemma do_POST_sent (lia : LooplyLIA) (w : World) (path : str)
      (loaded : str + pyval) (resp : http_response) :
  fst (do_POST lia w path loaded) = Some resp ->
  path = U "/chat" /\
  ((exists r level, resp = ok_response r level) \/
   (exists text, resp = error_response text)).
Proof.
  unfold do_POST.
  destruct (str_eqb path (U "/chat")) eqn:Hpath; [| discriminate].
  apply str_eqb_eq in Hpath. intros Hresp. split; [exact Hpath |].
  destruct loaded as [text | data].
  { injection Hresp as <-. right. by eexists. }
  destruct data as [| | | | | |items];
    try (injection Hresp as <-; right; by eexists).
  destruct (dict_get items (U "message")) as [[| | | |s| |]|];
    try (injection Hresp as <-; right; by eexists).
  - destruct (chat lia w s) as [[r lia']|];
      injection Hresp as <-; [left | right]; by repeat eexists.
  - destruct (chat lia w []) as [[r lia']|];
      injection Hresp as <-; [left | right]; by repeat eexists.
Qed.

(** X17. Whatever the handler sends in answer to a POST, with status
    200 or 500, is declared as JSON and carries the header that allows
    every origin; it answers a POST only on the path [/chat]; and the
    answer to a preflight request is 200 with the same header and no
    body. *)
Theorem X17_cors_on_every_response (lia : LooplyLIA) (w : World) (path : str)
        (loaded : str + pyval) (resp : http_response) :
  fst (do_POST lia w path loaded) = Some resp ->
  path = U "/chat" /\
  (status resp = 200%nat \/ status resp = 500%nat) /\
  In (U "Content-type", U "application/json") (sent_headers resp) /\
  In (U "Access-Control-Allow-Origin", U "*") (sent_headers resp) /\
  In (U "Access-Control-Allow-Origin", U "*") (sent_headers do_OPTIONS) /\
  status do_OPTIONS = 200%nat /\ payload do_OPTIONS = None.
Proof.
  intros Hresp. apply do_POST_sent in Hresp as [Hpath Hkind].
  split; [exact Hpath |].
  destruct Hkind as [(r & level & ->) | (text & ->)];
    cbn [status sent_headers ok_response error_response do_OPTIONS payload In];
    tauto.
Qed.




(** X19. When the [message] is a string, the reply of the response is
    [chat]'s reply to it, the responder that serves the next request is
    the one [chat] returned, and the level reported in the metadata is
    the level after the call: for a message that reaches the upgrade rule
    it is one more than before and is the level the reply names. *)
Theorem X19_reported_level (lia : LooplyLIA) (w : World)
        (items : list (str * pyval)) (s : str) :
  dict_get items (U "message") = Ok (PStr s) ->
  exists r lia',
    chat lia w s = Ok (r, lia') /\
    do_POST lia w (U "/chat") (inr (PDict items)) =
      (Some (ok_response r (intelligence_level lia')), lia') /\
    (reaches_upgrade s = true ->
     r = upgrade_reply (intelligence_level lia + 1) /\
     intelligence_level lia' = (intelligence_level lia + 1)%Z) /\
    (reaches_upgrade s = false -> lia' = lia).
Proof.
  intros Hget.
  destruct (chat_state lia w s) as [r Hr].
  eexists r, _. split; [exact Hr |].
  split.
  { unfold do_POST.
    change (str_eqb (U "/chat") (U "/chat")) with true. cbv iota.
    rewrite Hget, Hr. reflexivity. }
  split.
  - intros Hup. rewrite Hup. split; [| reflexivity].
    pose proof (chat_upgrade lia w s Hup) as Hc.
    rewrite Hr, Hup in Hc. by injection Hc.
  - intros ->. reflexivity.
Qed.

(** *** The test script *)

Lemma run_test_cases_pass (ws : nat -> World) (cases : list (str * str)) :
  forall lia n,
    Forall (fun r => snd (fst r) = U "✅ PASS")
           (fst (run_test_cases lia ws n cases)).
Proof.
  induction cases as [|[test_name query] rest IH]; intros lia n.
  - constructor.
  - cbn [run_test_cases]. destruct (chat_state lia (ws n) query) as [r Hr].
    rewrite Hr. cbn [fst]. constructor; [reflexivity | apply IH].
Qed.

Lemma filter_all {A} (f : A -> bool) (l : list A) :
  Forall (fun x => f x = true) l -> List.filter f l = l.
Proof.
  induction 1 as [|x l Hx _ IH]; [reflexivity |].
  cbn [List.filter]. by rewrite Hx, IH.
Qed.

(** X20. Whatever the clock and the draws of each call,
    [test_lia_functionality] marks its twelve queries and the
    learn-and-recall step as passed and returns [True]. *)
Theorem X20_test_script_passes (ws : nat -> World) :
  test_lia_functionality ws = true /\
  length test_cases = 12%nat /\
  Forall (fun r => snd (fst r) = U "✅ PASS")
         (fst (run_test_cases (__init__ (U "LIA")) ws 0 test_cases)).
Proof.
  split; [| split; [reflexivity | apply run_test_cases_pass]].
  unfold test_lia_functionality. cbv zeta.
  rewrite filter_all; [apply Nat.eqb_refl |].
  apply Forall_app_2.
  - eapply Forall_impl; [apply run_test_cases_pass |].
    intros [[nm st] len] Hst. cbn [fst snd] in *. rewrite Hst.
    vm_compute. reflexivity.
  - constructor; [| constructor]. cbn [fst snd]. vm_compute. reflexivity.
Qed.

End Responder.

(** ** The properties on concrete inputs *)

Example U_sparkles : U "✨ ok" = [10024; 32; 111; 107].
Proof. reflexivity. Qed.

Example U_rocket : U "🚀" = [128640].
Proof. reflexivity. Qed.

Example split_about :
  split (U "about") (U "a caption about cats about dogs") =
  [U "a caption "; U " cats "; U " dogs"].
Proof. reflexivity. Qed.

Example replace_hashtag :
  strip (replace (U "hashtag") [] (U "suggest hashtags for fitness")) =
  U "suggest s for fitness".
Proof. reflexivity. Qed.

Example title_key :
  title (replace (U "_") (U " ") (U "post_timing")) = U "Post Timing".
Proof. reflexivity. Qed.

Example strftime_morning : strftime_HMS morning = U "09:05:30".
Proof. reflexivity. Qed.

Example chat_hashtags_for_fitness :
  reply (chat no_unicode_lower (__init__ (U "LIA")) morning
              (U "suggest hashtags for fitness")) =
  Ok (U "📝 **Hashtag suggestions for suggest s for fitness:**" ++ [nl; nl] ++
      U "#FitnessJourney #HealthyLifestyle #WorkoutMotivation #FitFam #Wellness #LooplyFit"
      ++ [nl; nl] ++
      U "💡 Tip: Mix popular and niche hashtags for best reach!").
Proof. vm_compute. reflexivity. Qed.

(** An utterance that matches the time rule and the joke rule is answered
    by the time rule, the earlier of the two. *)
Lemma C1_witness_joke_about_time :
  none_matches [([U "hello"; U "hi"; U "hey"], greeting_intent)]
               (U "tell me a joke about time") = true /\
  any_in [U "time"] (U "tell me a joke about time") = true /\
  any_in [U "joke"] (U "tell me a joke about time") = true /\
  chat no_unicode_lower (__init__ (U "LIA")) morning
       (U "  Tell me a JOKE about time ") =
  time_intent (__init__ (U "LIA")) morning (U "tell me a joke about time").
Proof.
  split; [vm_compute; reflexivity |].
  split; [vm_compute; reflexivity |].
  split; [vm_compute; reflexivity |].
  apply (proj1 (proj2 (proj2
           (C1_chat_first_match no_unicode_lower (__init__ (U "LIA")) morning
              (U "  Tell me a JOKE about time "))))
           [([U "hello"; U "hi"; U "hey"], greeting_intent)]
           [U "time"] time_intent
           (drop 2 (respond_rules no_unicode_lower))).
  - reflexivity.
  - vm_compute. reflexivity.
  - vm_compute. reflexivity.
Defined.

(** A topic that starts with [#] brings a sixth hashtag token into the
    caption. *)
Lemma C2_counterexample_hash_in_topic :
  generate_caption no_unicode_lower morning (U "#x") (U "casual") =
    Ok (U "Plot twist: #x just became my new obsession 😍 #LooplyLife #Authentic #Community #Share #Connect") /\
  hashtag_tokens
    (U "Plot twist: #x just became my new obsession 😍 #LooplyLife #Authentic #Community #Share #Connect")
    = 6%nat /\
  ~ (6 <= 5)%nat.
Proof.
  split; [vm_compute; reflexivity |].
  split; [vm_compute; reflexivity | lia].
Qed.

(** The caption for [travel] contains [travel] and exactly five hashtag
    tokens. *)
Lemma C2_witness_travel :
  hashtag_tokens (U "travel") = 0%nat /\
  exists out,
    generate_caption no_unicode_lower morning (U "travel") (U "casual")
      = Ok out /\
    contains (U "travel") out = true /\
    hashtag_tokens out = 5%nat /\
    (hashtag_tokens out <= 5)%nat.
Proof.
  split; [reflexivity |].
  destruct (C2_caption_topic_and_hashtags no_unicode_lower morning
              (U "travel") (U "casual"))
    as (out & Hout & Htopic & Hcount & Hfive).
  exists out. split; [exact Hout |]. split; [exact Htopic |].
  split; [exact Hcount |]. apply Hfive. reflexivity.
Defined.

(** A fresh responder remembers nothing. *)
Lemma C5_witness_fresh :
  memory (__init__ (U "LIA")) !! U "niche" = None /\
  recall (__init__ (U "LIA")) (U "niche") = recall_default.
Proof.
  split; [reflexivity |].
  apply (C5_learn_then_recall (__init__ (U "LIA")) (U "niche") (U "fitness")).
  reflexivity.
Defined.

(** The utterance the hint itself suggests is answered with the hint and
    stores nothing. *)
Lemma C6_witness_learn_my_niche :
  none_matches (take 9 (respond_rules no_unicode_lower))
               (U "learn my niche: fitness") = true /\
  any_in [U "learn"; U "remember"] (U "learn my niche: fitness") = true /\
  chat no_unicode_lower (__init__ (U "LIA")) morning
       (U "learn my niche: fitness") =
  Ok (learn_hint, __init__ (U "LIA")).
Proof.
  split; [vm_compute; reflexivity |].
  split; [vm_compute; reflexivity |].
  apply (C6_chat_keeps_memory no_unicode_lower (__init__ (U "LIA")) morning
           (U "learn my niche: fitness")).
  - vm_compute. reflexivity.
  - vm_compute. reflexivity.
Defined.

(** Upper case and surrounding blanks do not hide a greeting. *)
Lemma C7_witness_hey :
  any_in [U "hello"; U "hi"; U "hey"]
         (lower no_unicode_lower (U "  HEY Lia ")) = true /\
  exists g,
    chat no_unicode_lower (__init__ (U "LIA")) morning (U "  HEY Lia ")
      = Ok (g, __init__ (U "LIA")) /\
    In g greetings.
Proof.
  split; [vm_compute; reflexivity |].
  destruct (C7_greeting no_unicode_lower (__init__ (U "LIA")) morning
              (U "  HEY Lia ")) as (g & Hg & Hin & _).
  - vm_compute. reflexivity.
  - by exists g.
Defined.

(** Two upgrade requests take a fresh responder to level 7. *)
Lemma C8_witness_two_upgrades :
  Forall (fun c => reaches_upgrade no_unicode_lower (snd c) = true)
         [(morning, U "upgrade"); (morning, U "Please UPGRADE now")] /\
  exists self',
    chats no_unicode_lower (__init__ (U "LIA"))
          [(morning, U "upgrade"); (morning, U "Please UPGRADE now")] =
      Ok ([upgrade_reply 6; upgrade_reply 7], self') /\
    intelligence_level self' = 7%Z.
Proof.
  assert (Forall (fun c => reaches_upgrade no_unicode_lower (snd c) = true)
                 [(morning, U "upgrade"); (morning, U "Please UPGRADE now")])
    as Hall.
  { repeat constructor; vm_compute; reflexivity. }
  split; [exact Hall |].
  destruct (C8_upgrade_counts no_unicode_lower (U "LIA") _ Hall)
    as (_ & _ & self' & Hrun & Hlevel).
  exists self'. split; [exact Hrun | exact Hlevel].
Defined.

(** The joke drawn is the same at level 5 and at level 42. *)
Lemma C9_witness_joke :
  reaches_upgrade no_unicode_lower (U "tell me a joke") = false /\
  exists r,
    reply (chat no_unicode_lower (__init__ (U "LIA")) morning
                (U "tell me a joke")) = Ok r /\
    reply (chat no_unicode_lower
                (set_intelligence_level (__init__ (U "LIA")) 42) morning
                (U "tell me a joke")) = Ok r.
Proof.
  split; [vm_compute; reflexivity |].
  apply (C9_level_independence no_unicode_lower (__init__ (U "LIA")) 42
           morning (U "tell me a joke")).
  vm_compute. reflexivity.
Defined.

(** [heart health] contains [art] inside [heart], yet the fitness rule,
    which comes first, matches [health]. *)
Lemma C10_counterexample_heart_health :
  U "heart health" = U "he" ++ U "art" ++ U " health" /\
  contains (U "art") (lower no_unicode_lower (U "heart health")) = true /\
  get_hashtags_for_topic no_unicode_lower (U "heart health") =
    Ok [ U "#FitnessJourney"; U "#HealthyLifestyle"; U "#WorkoutMotivation";
         U "#FitFam"; U "#Wellness"; U "#LooplyFit" ] /\
  get_hashtags_for_topic no_unicode_lower (U "heart health") <>
    Ok [ U "#Art"; U "#Creative"; U "#Artist"; U "#Inspiration";
         U "#Design"; U "#LooplyArt" ].
Proof.
  split; [reflexivity |].
  split; [vm_compute; reflexivity |].
  split; [vm_compute; reflexivity |].
  vm_compute. discriminate.
Qed.

(** [Party] contains [art] and no keyword of an earlier category. *)
Lemma C10_witness_party :
  none_matches (take 4 category_rules)
               (lower no_unicode_lower (U "Party")) = true /\
  contains (U "art") (lower no_unicode_lower (U "Party")) = true /\
  get_hashtags_for_topic no_unicode_lower (U "Party") =
    Ok [ U "#Art"; U "#Creative"; U "#Artist"; U "#Inspiration";
         U "#Design"; U "#LooplyArt" ].
Proof.
  split; [vm_compute; reflexivity |].
  split; [vm_compute; reflexivity |].
  apply (proj1 (C10_art_before_business no_unicode_lower) (U "Party")).
  - vm_compute. reflexivity.
  - vm_compute. reflexivity.
Defined.

(** ** The further properties on concrete inputs *)

(** The advice for [consistency] alone, and the whole overview for
    [general], which is no strategy. *)
Lemma X3_witness_consistency_and_general :
  In (U "consistency",
      U "Post consistently but prioritize quality over quantity. 3-5 high-quality posts per week beats daily rushed content.")
     engagement_strategies /\
  get_engagement_tips (U "consistency") =
    Ok (U "💡 " ++
        U "Post consistently but prioritize quality over quantity. 3-5 high-quality posts per week beats daily rushed content.") /\
  dict_mem engagement_strategies (U "general") = false /\
  get_engagement_tips (U "general") = Ok engagement_mastery.
Proof.
  assert (In (U "consistency",
              U "Post consistently but prioritize quality over quantity. 3-5 high-quality posts per week beats daily rushed content.")
             engagement_strategies) as Hin.
  { unfold engagement_strategies. do 4 right. left. reflexivity. }
  split; [exact Hin |].
  split; [exact (proj1 (X3_engagement_tips_focus (U "consistency")) _ Hin) |].
  split; [vm_compute; reflexivity |].
  apply (proj1 (proj2 (X3_engagement_tips_focus (U "general")))).
  vm_compute. reflexivity.
Defined.

(** Learning the niche does not change what is recalled for another
    key. *)
Lemma X4_witness_other_key :
  U "posting time" <> U "niche" /\
  recall (snd (learn (__init__ (U "LIA")) (U "niche") (U "fitness")))
         (U "posting time") =
  recall (__init__ (U "LIA")) (U "posting time").
Proof.
  assert (U "posting time" <> U "niche") as Hne
    by (intros Heq; vm_compute in Heq; discriminate).
  split; [exact Hne |].
  exact (proj1 (X4_learn_frame (__init__ (U "LIA")) (U "niche")
                  (U "posting time") (U "fitness") (U "7 pm")) Hne).
Defined.

(** The utterance [upgrade] and the method leave the same responder. *)
Lemma X7_witness_upgrade :
  reaches_upgrade no_unicode_lower (U "upgrade") = true /\
  exists r,
    chat no_unicode_lower (__init__ (U "LIA")) morning (U "upgrade") =
      Ok (r, snd (upgrade_intelligence (__init__ (U "LIA")))).
Proof.
  assert (reaches_upgrade no_unicode_lower (U "upgrade") = true) as Hup
    by (vm_compute; reflexivity).
  split; [exact Hup |].
  destruct (X7_upgrade_two_ways no_unicode_lower (__init__ (U "LIA")) morning
              (U "upgrade") Hup) as (r & Hr & _).
  exists r. exact Hr.
Defined.

(** The line the hint of [chat] itself suggests for remembering a
    posting time contains [time]: it is answered with the clock. *)
Lemma X8_witness_remember_posting_time :
  any_in [U "hello"; U "hi"; U "hey"]
         (strip (lower no_unicode_lower (U "remember posting time: 7 PM")))
    = false /\
  contains (U "time")
           (strip (lower no_unicode_lower (U "remember posting time: 7 PM")))
    = true /\
  chat no_unicode_lower (__init__ (U "LIA")) morning
       (U "remember posting time: 7 PM") =
    Ok (U "⏰ Current time is " ++ U "09:05:30" ++
        U " - Perfect time to create some content!", __init__ (U "LIA")).
Proof.
  split; [vm_compute; reflexivity |].
  split; [vm_compute; reflexivity |].
  apply (X8_time_reply no_unicode_lower (__init__ (U "LIA")) morning
           (U "remember posting time: 7 PM")).
  - vm_compute. lia.
  - vm_compute. lia.
  - vm_compute. lia.
  - vm_compute. reflexivity.
  - vm_compute. reflexivity.
Defined.

(** A caption about [Travel] is a caption about [travel]; a caption for
    [Fitness] is a caption about [fitness]. *)
Lemma X9_witness_about_travel :
  strip (lower no_unicode_lower (U "Create a caption about Travel")) =
    U "create a caption " ++ U "about" ++ U " travel" /\
  (exists r,
      chat no_unicode_lower (__init__ (U "LIA")) morning
           (U "Create a caption about Travel") = Ok (r, __init__ (U "LIA")) /\
      generate_caption no_unicode_lower morning (U "travel") (U "casual")
        = Ok r /\
      contains (U "travel") r = true) /\
  strip (lower no_unicode_lower (U "caption for Fitness")) =
    U "caption " ++ U "for" ++ U " fitness" /\
  (exists r,
      chat no_unicode_lower (__init__ (U "LIA")) morning
           (U "caption for Fitness") = Ok (r, __init__ (U "LIA")) /\
      generate_caption no_unicode_lower morning (U "fitness") (U "casual")
        = Ok r /\
      contains (U "fitness") r = true).
Proof.
  split; [vm_compute; reflexivity |].
  split.
  { apply (proj1 (X9_caption_topic no_unicode_lower (__init__ (U "LIA"))
                    morning (U "Create a caption about Travel")
                    (U "create a caption ") (U " travel")
                    ltac:(vm_compute; reflexivity)
                    ltac:(vm_compute; reflexivity)));
      vm_compute; reflexivity. }
  split; [vm_compute; reflexivity |].
  apply (proj2 (X9_caption_topic no_unicode_lower (__init__ (U "LIA"))
                  morning (U "caption for Fitness")
                  (U "caption ") (U " fitness")
                  ltac:(vm_compute; reflexivity)
                  ltac:(vm_compute; reflexivity)));
    vm_compute; reflexivity.
Defined.

(** [Creative writing] gets the food hashtags, [creative workout] the
    fitness hashtags. *)
Lemma X10_witness_creative_writing :
  contains (U "creative") (lower no_unicode_lower (U "Creative writing"))
    = true /\
  get_hashtags_for_topic no_unicode_lower (U "Creative writing") =
    Ok [ U "#Foodie"; U "#Delicious"; U "#Cooking"; U "#Recipe";
         U "#FoodLover"; U "#LooplyEats" ] /\
  contains (U "creative") (lower no_unicode_lower (U "creative workout"))
    = true /\
  get_hashtags_for_topic no_unicode_lower (U "creative workout") =
    Ok [ U "#FitnessJourney"; U "#HealthyLifestyle"; U "#WorkoutMotivation";
         U "#FitFam"; U "#Wellness"; U "#LooplyFit" ].
Proof.
  assert (contains (U "creative")
                   (lower no_unicode_lower (U "Creative writing")) = true)
    as Hc by (vm_compute; reflexivity).
  assert (contains (U "creative")
                   (lower no_unicode_lower (U "creative workout")) = true)
    as Hw by (vm_compute; reflexivity).
  split; [exact Hc |]. split.
  { rewrite (proj1 (X10_creative_is_food no_unicode_lower
                      (U "Creative writing") Hc)).
    vm_compute. reflexivity. }
  split; [exact Hw |].
  rewrite (proj1 (X10_creative_is_food no_unicode_lower
                    (U "creative workout") Hw)).
  vm_compute. reflexivity.
Defined.

(** The caption for [travel] has the five travel hashtags as its only
    hashtag tokens. *)
Lemma X11_witness_travel :
  count_hash (U "travel") = 0%nat /\
  exists body,
    generate_caption no_unicode_lower morning (U "travel") (U "casual") =
      Ok (body ++ U " " ++
          U "#Travel #Adventure #Wanderlust #Explore #Journey") /\
    List.filter is_hashtag
      (tokens (body ++ U " " ++
               U "#Travel #Adventure #Wanderlust #Explore #Journey")) =
    [U "#Travel"; U "#Adventure"; U "#Wanderlust"; U "#Explore"; U "#Journey"].
Proof.
  split; [reflexivity |].
  destruct (X11_caption_ends_with_hashtags no_unicode_lower morning
              (U "travel") (U "casual"))
    as (body & hs & Hhs & _ & Hcap & Htok).
  vm_compute in Hhs. injection Hhs as <-.
  exists body. split; [exact Hcap |].
  apply Htok. reflexivity.
Defined.

(** [  HELLO ] is answered like [hello]. *)
Lemma X13_witness_hello :
  chat no_unicode_lower (__init__ (U "LIA")) morning (U "  HELLO ") =
  chat no_unicode_lower (__init__ (U "LIA")) morning (U "hello").
Proof.
  refine (proj1 (X13_case_and_blanks no_unicode_lower (__init__ (U "LIA"))
                   morning (U "hello") (U "  ") (U " ") _ _ _ _ _)).
  all: try literal "hello"%string; try literal "  "%string;
    try literal " "%string.
  all: repeat constructor.
Defined.

(** [  QUIT ] leaves the loop, a blank line brings the prompt back, and
    [ hello ] is greeted. *)
Lemma X14_witness_three_lines :
  is_exit no_unicode_lower (U "  QUIT ") = true /\
  interactive_turn no_unicode_lower no_exn_text (__init__ (U "LIA")) morning
                   (Typed (U "  QUIT ")) =
    Stop [Prompted (U "🎭 You: "); Printed ([nl] ++ goodbye)] /\
  is_exit no_unicode_lower (U "   ") = false /\
  interactive_turn no_unicode_lower no_exn_text (__init__ (U "LIA")) morning
                   (Typed (U "   ")) =
    Go [Prompted (U "🎭 You: ")] (__init__ (U "LIA")) /\
  is_exit no_unicode_lower (U " hello ") = false /\
  exists r lia',
    chat no_unicode_lower (__init__ (U "LIA")) morning (strip (U " hello "))
      = Ok (r, lia') /\
    interactive_turn no_unicode_lower no_exn_text (__init__ (U "LIA")) morning
                     (Typed (U " hello ")) =
      Go [Prompted (U "🎭 You: "); Printed (U "🤖 LIA: " ++ r); Printed []]
         lia'.
Proof.
  split; [vm_compute; reflexivity |].
  split.
  { apply (proj1 (X14_turn_on_a_line no_unicode_lower no_exn_text
                    (__init__ (U "LIA")) morning (U "  QUIT "))).
    vm_compute. reflexivity. }
  split; [vm_compute; reflexivity |].
  split.
  { apply (proj1 (proj2 (X14_turn_on_a_line no_unicode_lower no_exn_text
                           (__init__ (U "LIA")) morning (U "   "))));
      vm_compute; reflexivity. }
  split; [vm_compute; reflexivity |].
  apply (proj2 (proj2 (X14_turn_on_a_line no_unicode_lower no_exn_text
                         (__init__ (U "LIA")) morning (U " hello "))));
    [vm_compute; reflexivity |].
  intros Heq. vm_compute in Heq. discriminate Heq.
Defined.

(** Two requests for input after its end: two error messages, and the
    loop still runs. *)
Lemma X15_witness_twice :
  Forall (fun c => snd c = EndOfInput)
         [(morning, EndOfInput); (morning, EndOfInput)] /\
  snd (interactive_loop no_unicode_lower no_exn_text (__init__ (U "LIA"))
         [(morning, EndOfInput); (morning, EndOfInput)]) =
  Some (__init__ (U "LIA")).
Proof.
  assert (Forall (fun c : World * console_input => snd c = EndOfInput)
                 [(morning, EndOfInput); (morning, EndOfInput)]) as Hall
    by (repeat constructor).
  split; [exact Hall |].
  rewrite (X15_end_of_input_goes_on no_unicode_lower no_exn_text
             (__init__ (U "LIA")) _ Hall).
  reflexivity.
Defined.

(** A greeting, a blank line, the end of the input and an upgrade: two
    replies are written, in this order, and the session goes on at
    level 6. *)
Lemma X16_witness_session :
  forallb (goes_on no_unicode_lower)
          [ (morning, Typed (U "hello")); (morning, Typed (U "  "));
            (morning, EndOfInput); (morning, Typed (U "upgrade")) ] = true /\
  interactive_loop no_unicode_lower no_exn_text (__init__ (U "LIA"))
    [ (morning, Typed (U "hello")); (morning, Typed (U "  "));
      (morning, EndOfInput); (morning, Typed (U "upgrade")) ] =
  ([ Prompted (U "🎭 You: ");
     Printed (U "🤖 LIA: " ++
              U "Hello! ✨ I'm here to help you level up your Looply game. What can we work on?");
     Printed [];
     Prompted (U "🎭 You: ");
     Prompted (U "🎭 You: ");
     Printed (oops ++ U "EOF when reading a line"); Printed try_asking;
     Prompted (U "🎭 You: ");
     Printed (U "🤖 LIA: " ++ upgrade_reply 6); Printed [] ],
   Some (set_intelligence_level (__init__ (U "LIA")) 6)).
Proof.
  assert (forallb (goes_on no_unicode_lower)
            [ (morning, Typed (U "hello")); (morning, Typed (U "  "));
              (morning, EndOfInput); (morning, Typed (U "upgrade")) ] = true)
    as Hgo by (vm_compute; reflexivity).
  split; [exact Hgo |].
  destruct (X16_loop_is_a_run_of_chat no_unicode_lower no_exn_text _
              (__init__ (U "LIA")) Hgo) as (replies & lia' & Hrun & _ & Hloop).
  vm_compute in Hrun. injection Hrun as <- <-.
  rewrite Hloop. vm_compute. reflexivity.
Defined.

(** A body that is no JSON is answered 500, with the header that allows
    every origin. *)
Lemma X17_witness_bad_json :
  fst (do_POST no_unicode_lower no_exn_text (__init__ (U "LIA")) morning
         (U "/chat") (inl (U "Expecting value: line 1 column 1 (char 0)")))
    = Some (error_response (U "Expecting value: line 1 column 1 (char 0)")) /\
  In (U "Access-Control-Allow-Origin", U "*")
     (sent_headers
        (error_response (U "Expecting value: line 1 column 1 (char 0)"))).
Proof.
  assert (fst (do_POST no_unicode_lower no_exn_text (__init__ (U "LIA"))
                 morning (U "/chat")
                 (inl (U "Expecting value: line 1 column 1 (char 0)")))
          = Some (error_response
                    (U "Expecting value: line 1 column 1 (char 0)")))
    as Hresp by reflexivity.
  split; [exact Hresp |].
  exact (proj1 (proj2 (proj2 (proj2
           (X17_cors_on_every_response no_unicode_lower no_exn_text _ _ _ _ _
              Hresp))))).
Defined.


(** An upgrade request over HTTP reports level 6 in its metadata. *)
Lemma X19_witness_upgrade_request :
  dict_get [(U "message", PStr (U "upgrade"))] (U "message")
    = Ok (PStr (U "upgrade")) /\
  exists lia',
    do_POST no_unicode_lower no_exn_text (__init__ (U "LIA")) morning
            (U "/chat") (inr (PDict [(U "message", PStr (U "upgrade"))])) =
      (Some (ok_response (upgrade_reply 6) 6), lia') /\
    intelligence_level lia' = 6%Z.
Proof.
  split; [reflexivity |].
  destruct (X19_reported_level no_unicode_lower no_exn_text
              (__init__ (U "LIA")) morning
              [(U "message", PStr (U "upgrade"))] (U "upgrade") eq_refl)
    as (r & lia' & _ & Hpost & Hup & _).
  destruct (Hup ltac:(vm_compute; reflexivity)) as [-> Hlevel].
  exists lia'. split; [| exact Hlevel].
  rewrite Hpost, Hlevel. reflexivity.
Defined.
